(** * legacy_trunk: the mail dispatcher and the upload form controller

    A shallow embedding of [backend/config/mailer.js] and of the handlers of
    [frontend/src/Components/UploadMemoryDialog.js], with the properties the
    specification states about them.

    Conventions of the embedding.
    - A JavaScript string is a [string]; each character stands for one code
      unit below 256.
    - An array of strings is a [list string]; a plain object used as a
      dictionary is a [gmap string jsval]. Tags are strings, as the tagging
      service's contract and the draft's data model have them.
    - A handler is a computation in the monad [M]: it threads the component's
      React state, appends to a trace of observable effects (alerts, console
      output, network requests, parent callbacks) and completes normally or
      by throwing. A call to one of the parent's callbacks is recorded and
      then completes as the parent decides, normally or by throwing.
    - What the outside world answers (the outcome of a [fetch], the clock) is
      an argument of the handler. An [async] handler is run to completion
      from the state its continuation finds, with the render's snapshot it
      closes over given apart. *)

From stdpp Require Import base strings list gmap.
From Stdlib Require Import Ascii String.

Open Scope string_scope.
Open Scope list_scope.
Set Warnings "-register-all".

(** ** JavaScript values and built-ins used by the two files *)

Module JS.

(** A selected file ([e.target.files[0]]); only its name is ever read. *)
Record File := { name : string }.

(** Values that flow through the handlers: parsed JSON, form entries,
    callback arguments. [VObject] lists the members of a parsed JSON object
    in textual order. *)
Inductive jsval :=
| VUndefined
| VNull
| VBool (b : bool)
| VNum (n : Z)
| VString (s : string)
| VArray (items : list jsval)
| VObject (members : list (string * jsval))
| VFile (f : File).

(** What a handler can meet as thrown value or as reason of a rejected
    promise: an [Error] object of one of three kinds, or any other value
    ([throw null], [Promise.reject()], a thrown string). *)
Inductive exn :=
| NetworkError (message : string)   (* the promise of [fetch] / the SDK call rejects *)
| SyntaxError                       (* [res.json()] on a body that is not JSON *)
| TypeError (message : string)      (* property of null, not a function, body already read *)
| ThrownValue (v : jsval).          (* a value that is not an [Error] object *)

(** [value.key] for a parsed JSON value: reading a property of [null] or
    [undefined] throws; a later duplicate member of an object wins, as in
    [JSON.parse]; any other value has no such property. *)
Definition get_member (key : string) (members : list (string * jsval)) : jsval :=
  match filter (λ kv, kv.1 = key) members with
  | [] => VUndefined
  | kv :: rest => (List.last rest kv).2
  end.

Definition get_prop (v : jsval) (key : string) : exn + jsval :=
  match v with
  | VUndefined | VNull => inl (TypeError "Cannot read properties of null")
  | VObject members => inr (get_member key members)
  | _ => inr VUndefined
  end.

(** [error.message] in a catch block: the message of an [Error] object; on
    any other caught value an ordinary property read, which throws when the
    value is [null] or [undefined]. *)
Definition error_message (error : exn) : exn + jsval :=
  match error with
  | NetworkError m => inr (VString m)
  | SyntaxError => inr (VString "Unexpected token in JSON")
  | TypeError m => inr (VString m)
  | ThrownValue v => get_prop v "message"
  end.

(** Truthiness of a string: [!s] is true exactly for the empty string. *)
Definition truthy (s : string) : bool :=
  match s with "" => false | _ => true end.

(** White space and line terminators of ECMAScript among the code units
    below 256: TAB, LF, VT, FF, CR, SP, NBSP. *)
Definition is_white_space (c : ascii) : bool :=
  let n := nat_of_ascii c in
  (((9 <=? n) && (n <=? 13)) || (n =? 32) || (n =? 160))%nat.

(** [String.prototype.trimStart], [trimEnd] and [trim]. *)
Fixpoint trimStart (s : string) : string :=
  match s with
  | "" => ""
  | String c s' => if is_white_space c then trimStart s' else s
  end.

Fixpoint trimEnd (s : string) : string :=
  match s with
  | "" => ""
  | String c s' =>
      match trimEnd s' with
      | "" => if is_white_space c then "" else String c ""
      | r => String c r
      end
  end.

Definition trim (s : string) : string := trimEnd (trimStart s).

(** A string that is empty or holds white space only. *)
Definition blank (s : string) : bool :=
  forallb is_white_space (list_ascii_of_string s).

(** [arr.join(sep)] on an array of strings. *)
Definition join (sep : string) (arr : list string) : string :=
  String.concat sep arr.

(** [arr.includes(x)] on an array of strings. *)
Definition includes (x : string) (arr : list string) : bool :=
  bool_decide (x ∈ arr).

(** [new Set(iterable)] followed by a spread: the elements in the order of
    their first insertion. [Set_add] is [Set.prototype.add]. *)
Definition Set_add (set : list string) (x : string) : list string :=
  if includes x set then set else set ++ [x].

Definition Set_from (iterable : list string) : list string :=
  fold_left Set_add iterable [].

(** [Object.fromEntries(entries)]: entries are defined in order, a later one
    overwrites an earlier one with the same key. *)
Definition fromEntries (entries : list (string * jsval)) : gmap string jsval :=
  fold_left (λ obj kv, <[kv.1 := kv.2]> obj) entries ∅.

End JS.

(** ** Handlers as computations: state, trace of effects, exceptions *)

Module Eff.
Import JS.

Section Monad.
Context {S E : Type}.

(** A computation runs from a state and gives the completion (a thrown
    exception or a value), the state it leaves and the effects it has
    performed, oldest first. *)
Definition M (A : Type) : Type := S → (exn + A) * S * list E.

Definition ret {A} (a : A) : M A := λ s, (inr a, s, []).
Definition throw {A} (e : exn) : M A := λ s, (inl e, s, []).
Definition lift {A} (r : exn + A) : M A := λ s, (r, s, []).
Definition emit (ev : E) : M unit := λ s, (inr tt, s, [ev]).
Definition modify (f : S → S) : M unit := λ s, (inr tt, f s, []).

Definition bind {A B} (m : M A) (k : A → M B) : M B := λ s,
  match m s with
  | (inr a, s1, t1) => let '(r, s2, t2) := k a s1 in (r, s2, t1 ++ t2)
  | (inl e, s1, t1) => (inl e, s1, t1)
  end.

(** [try { m } catch (err) { h err }] *)
Definition try_catch {A} (m : M A) (h : exn → M A) : M A := λ s,
  match m s with
  | (inl e, s1, t1) => let '(r, s2, t2) := h e s1 in (r, s2, t1 ++ t2)
  | done => done
  end.

(** [try { m } finally { f }]: [f] runs on both completions; the
    completion of [m] stands unless [f] itself throws. *)
Definition try_finally {A} (m : M A) (f : M unit) : M A := λ s,
  let '(r, s1, t1) := m s in
  match f s1 with
  | (inr _, s2, t2) => (r, s2, t1 ++ t2)
  | (inl e, s2, t2) => (inl e, s2, t1 ++ t2)
  end.

Definition try_catch_finally {A} (m : M A) (h : exn → M A) (f : M unit) : M A :=
  try_finally (try_catch m h) f.

Definition completion {A} (r : (exn + A) * S * list E) : exn + A := r.1.1.
Definition final {A} (r : (exn + A) * S * list E) : S := r.1.2.
Definition trace {A} (r : (exn + A) * S * list E) : list E := r.2.
End Monad.

Arguments M : clear implicits.

Declare Scope js_scope.
Delimit Scope js_scope with js.
Notation "x <- m ;; k" := (bind m (λ x, k))
  (at level 100, m at next level, right associativity) : js_scope.
Notation "m ;; k" := (bind m (λ _, k))
  (at level 100, right associativity) : js_scope.

End Eff.

(** ** backend/config/mailer.js *)

Module Mailer.
Import JS Eff.
Open Scope js_scope.

Record MailMessage := { from : string; to : string; subject : string; html : string }.

(** The effects of the dispatcher: the call to the provider and what the
    console is given. *)
Inductive effect :=
| EmailsSend (msg : MailMessage)
| ConsoleLog (args : list jsval)
| ConsoleError (args : list jsval).

(** How [resend.emails.send] settles: the promise resolves with a response
    object ([{data: {id}, error: null}] on success, [{data: null, error}]
    when the provider rejects the message) or it rejects with an error. *)
Inductive send_outcome :=
| Resolves (response : jsval)
| Rejects (error : exn).

Definition emails_send (msg : MailMessage) (o : send_outcome) : M unit effect jsval :=
  emit (EmailsSend msg) ;;
  match o with
  | Resolves response => ret response
  | Rejects error => throw error
  end.

(** Truthiness, for [a || b]. *)
Definition truthy_val (v : jsval) : bool :=
  match v with
  | VUndefined | VNull => false
  | VBool b => b
  | VNum n => negb (n =? 0)%Z
  | VString s => truthy s
  | VArray _ | VObject _ | VFile _ => true
  end.

(** [v?.key] *)
Definition optional_prop (v : jsval) (key : string) : jsval :=
  match get_prop v key with
  | inl _ => VUndefined
  | inr x => x
  end.

Definition sendMail (to from subject html : string) (o : send_outcome) : M unit effect unit :=
  try_catch
    (response <- emails_send {| from := from; to := to; subject := subject; html := html |} o ;;
     emit (ConsoleLog [response]) ;;
     data <- lift (get_prop response "data") ;;
     let id := optional_prop data "id" in
     emit (ConsoleLog [VString "Email sent:"; if truthy_val id then id else VString "OK"]))
    (λ error,
     message <- lift (error_message error) ;;
     emit (ConsoleError [VString "Email error:"; message])).

(** The calls a trace makes to the provider, and what it writes to the
    error console. *)
Definition provider_calls (t : list effect) : list MailMessage :=
  omap (λ ev, match ev with EmailsSend msg => Some msg | _ => None end) t.
Definition error_logs (t : list effect) : list (list jsval) :=
  omap (λ ev, match ev with ConsoleError args => Some args | _ => None end) t.

End Mailer.

(** ** frontend/src/Components/UploadMemoryDialog.js *)

Module UploadMemoryDialog.
Import JS Eff.
Open Scope js_scope.

Definition availableTags : list string :=
  ["Birthday"; "Festival"; "Vacation"; "Achievement"; "Family Gathering";
   "Anniversary"; "Graduation"; "Wedding"].

Definition FASTAPI_URL : string := "http://127.0.0.1:8000/predict-tags/".

(** The draft held in the [formData] state variable. *)
Record MemoryDraft := {
  text : string;
  description : string;
  upload_date : string;
  tags : list string;
}.

(** The four [useState] cells of the component. *)
Record State := {
  st_formData : MemoryDraft;
  st_file : option File;
  st_isUploading : bool;
  st_isGeneratingTags : bool;
}.

(** [{...prev, tags: v}] and its siblings for the other fields. *)
Definition with_tags (prev : MemoryDraft) (v : list string) : MemoryDraft :=
  {| text := text prev; description := description prev;
     upload_date := upload_date prev; tags := v |}.
Definition with_text (prev : MemoryDraft) (v : string) : MemoryDraft :=
  {| text := v; description := description prev;
     upload_date := upload_date prev; tags := tags prev |}.
Definition with_description (prev : MemoryDraft) (v : string) : MemoryDraft :=
  {| text := text prev; description := v;
     upload_date := upload_date prev; tags := tags prev |}.
Definition with_upload_date (prev : MemoryDraft) (v : string) : MemoryDraft :=
  {| text := text prev; description := description prev;
     upload_date := v; tags := tags prev |}.

(** The draft every reset installs; [today] is what
    [new Date().toISOString().split("T")[0]] reads at that moment. *)
Definition emptyDraft (today : string) : MemoryDraft :=
  {| text := ""; description := ""; upload_date := today; tags := [] |}.

Definition initialState (today : string) : State :=
  {| st_formData := emptyDraft today; st_file := None;
     st_isUploading := false; st_isGeneratingTags := false |}.

(** The body of a request, as [fetch] is given it. *)
Inductive request_body :=
| JsonBody (title description : string) (top_k : Z)
| MultipartBody (entries : list (string * jsval)).

Record request := {
  url : string;
  method : string;
  headers : list (string * string);
  body : request_body;
  credentials_include : bool;
}.

(** What the console is given: a value or a caught error. *)
Inductive logged :=
| LVal (v : jsval)
| LErr (e : exn).

Inductive effect :=
| Alert (msg : string)
| ConsoleError (args : list logged)
| PreventDefault
| Fetch (req : request)
| OnSuccess (memory : gmap string jsval)
| OnClose.

(** A response: its [ok] flag and what [res.json()] makes of its body,
    [None] when the body is not JSON. *)
Record Response (B : Type) := { ok : bool; parsed : option B }.
Arguments ok {B} _.
Arguments parsed {B} _.

(** How the promise of [fetch] settles. *)
Inductive fetch_outcome (B : Type) :=
| Resolves (res : Response B)
| Rejects (error : exn).
Arguments Resolves {B} _.
Arguments Rejects {B} _.

(** The parsed body of the tagging service, by what
    [data.map((item) => item.tag)] does with it. The service answers with an
    array of [{tag, ...}] records whose [tag] is a string; an item may be
    [null], and the body may be some other JSON value (an error object, say).
    An array with an item whose [tag] is not a string is outside this type:
    what is proved of accepted answers is proved of answers with string
    tags. *)
Inductive predict_item :=
| ItemNull
| ItemRecord (tag : string).

Inductive predict_json :=
| PredictArray (items : list predict_item)
| PredictOther.

Definition item_tag (item : predict_item) : exn + string :=
  match item with
  | ItemNull => inl (TypeError "Cannot read properties of null")
  | ItemRecord tag => inr tag
  end.

Fixpoint map_item_tag (items : list predict_item) : exn + list string :=
  match items with
  | [] => inr []
  | item :: rest =>
      match item_tag item with
      | inl e => inl e
      | inr tag =>
          match map_item_tag rest with
          | inl e => inl e
          | inr tags => inr (tag :: tags)
          end
      end
  end.

Definition data_map_tag (data : predict_json) : exn + list string :=
  match data with
  | PredictArray items => map_item_tag items
  | PredictOther => inl (TypeError "data.map is not a function")
  end.

Abbreviation Handler := (M State effect).

(** State setters; [setFormData_with] is the functional form
    [setFormData((prev) => ...)]. *)
Definition setFormData (v : MemoryDraft) : Handler unit :=
  modify (λ s, {| st_formData := v; st_file := st_file s;
                  st_isUploading := st_isUploading s;
                  st_isGeneratingTags := st_isGeneratingTags s |}).
Definition setFormData_with (f : MemoryDraft → MemoryDraft) : Handler unit :=
  modify (λ s, {| st_formData := f (st_formData s); st_file := st_file s;
                  st_isUploading := st_isUploading s;
                  st_isGeneratingTags := st_isGeneratingTags s |}).
Definition setFile (v : option File) : Handler unit :=
  modify (λ s, {| st_formData := st_formData s; st_file := v;
                  st_isUploading := st_isUploading s;
                  st_isGeneratingTags := st_isGeneratingTags s |}).
Definition setIsUploading (v : bool) : Handler unit :=
  modify (λ s, {| st_formData := st_formData s; st_file := st_file s;
                  st_isUploading := v;
                  st_isGeneratingTags := st_isGeneratingTags s |}).
Definition setIsGeneratingTags (v : bool) : Handler unit :=
  modify (λ s, {| st_formData := st_formData s; st_file := st_file s;
                  st_isUploading := st_isUploading s;
                  st_isGeneratingTags := v |}).

Definition alert (msg : string) : Handler unit := emit (Alert msg).

(** [await fetch(url, init)] *)
Definition fetch {B} (req : request) (o : fetch_outcome B) : Handler (Response B) :=
  emit (Fetch req) ;;
  match o with
  | Resolves res => ret res
  | Rejects error => throw error
  end.

(** [await res.json()] *)
Definition Response_json {B} (res : Response B) : Handler B :=
  match parsed res with
  | Some v => ret v
  | None => throw SyntaxError
  end.

(** [await res.text()] once [res.json()] has read the body: the stream is
    used up and the promise rejects. *)
Definition Response_text_after_json {B} (res : Response B) : Handler string :=
  throw (TypeError "body stream already read").

(** [formDataToSend.append(key, value)] on the list of entries. *)
Definition FormData_append (form : list (string * jsval)) (key : string) (value : jsval)
  : list (string * jsval) :=
  form ++ [(key, value)].

(** The handlers of one render. They close over the [formData] and [file]
    of that render: what they read through these names is the render's
    snapshot, while a functional update receives the state current when it
    is applied. [BACKEND_URL] is [config.BACKEND_URL]. *)
Section Render.
Variable BACKEND_URL : string.
Variable formData : MemoryDraft.
Variable file : option File.

(** The parent's callbacks, by how a call to them completes: normally, or
    by throwing (a callback that is missing throws a [TypeError] when
    called). *)
Variable onClose : exn + unit.
Variable onSuccess : gmap string jsval → exn + unit.

Definition handleTagToggle (tag : string) : Handler unit :=
  setFormData_with (λ prev,
    with_tags prev
      (if includes tag (tags prev)
       then filter (λ t, t ≠ tag) (tags prev)
       else tags prev ++ [tag])).

(** [o] is how the request to the tagging service settles. *)
Definition handleGenerateTags (o : fetch_outcome predict_json) : Handler unit :=
  if negb (truthy (trim (text formData))) && negb (truthy (trim (description formData)))
  then alert "Please enter a title or description first!"
  else
    setIsGeneratingTags true ;;
    try_catch_finally
      (res <- fetch {| url := FASTAPI_URL; method := "POST";
                       headers := [("Content-Type", "application/json")];
                       body := JsonBody (text formData) (description formData) 5;
                       credentials_include := false |} o ;;
       data <- Response_json res ;;
       if ok res then
         aiTags <- lift (data_map_tag data) ;;
         setFormData_with (λ prev,
           with_tags prev (Set_from (tags prev ++ aiTags))) ;;
         alert ("AI suggested tags: " +:+ join ", " aiTags)
       else
         alert "Failed to generate tags from AI")
      (λ err,
         emit (ConsoleError [LErr err]) ;;
         alert "Error connecting to AI Tag Generator")
      (setIsGeneratingTags false).

(** [today] is the date the reset reads from the clock. *)
Definition handleClose (today : string) : Handler unit :=
  setFormData (emptyDraft today) ;;
  setFile None ;;
  emit OnClose ;;
  lift onClose.

(** The multipart payload [handleSubmit] builds. *)
Definition formDataToSend : list (string * jsval) :=
  let form := [] in
  let form := FormData_append form "text" (VString (text formData)) in
  let form := FormData_append form "description" (VString (description formData)) in
  let form :=
    fold_left (λ form tag, FormData_append form "tags" (VString tag)) (tags formData) form in
  let form := FormData_append form "tags_input" (VString (join " " (tags formData))) in
  match file with
  | Some f => FormData_append form "files" (VFile f)
  | None => form
  end.

(** [o] is how the request to the upload endpoint settles. *)
Definition handleSubmit (today : string) (o : fetch_outcome jsval) : Handler unit :=
  emit PreventDefault ;;
  setIsUploading true ;;
  try_catch_finally
    (res <- fetch {| url := BACKEND_URL +:+ "/add-media"; method := "POST";
                     headers := [];
                     body := MultipartBody formDataToSend;
                     credentials_include := true |} o ;;
     urlImage <- Response_json res ;;
     if ok res then
       let formDataObj := fromEntries formDataToSend in
       alert "Memory uploaded successfully!" ;;
       media <- lift (get_prop urlImage "media") ;;
       let memory := <["media" := media]>
                       (<["tags" := VString (join ", " (tags formData))]> formDataObj) in
       emit (OnSuccess memory) ;;
       lift (onSuccess memory) ;;
       handleClose today
     else
       body_text <- Response_text_after_json res ;;
       emit (ConsoleError [LVal (VString "Upload failed:"); LVal (VString body_text)]) ;;
       alert "Failed to upload memory")
    (λ err,
       emit (ConsoleError [LErr err]) ;;
       alert "Something went wrong while uploading")
    (setIsUploading false).

(** The inline [onChange] handlers of the form fields. *)
Definition onChange_text (value : string) : Handler unit :=
  setFormData (with_text formData value).
Definition onChange_description (value : string) : Handler unit :=
  setFormData (with_description formData value).
Definition onChange_upload_date (value : string) : Handler unit :=
  setFormData (with_upload_date formData value).
Definition onChange_file (selected : option File) : Handler unit :=
  setFile selected.
End Render.

(** A handler invoked by the render of state [s]: its closure holds the
    [formData] and [file] of [s], and it runs from [s]. *)
Definition toggleTag (tag : string) (s : State) :=
  handleTagToggle tag s.
Definition generateTags (o : fetch_outcome predict_json) (s : State) :=
  handleGenerateTags (st_formData s) o s.
Definition submit (BACKEND_URL : string) (onClose : exn + unit)
    (onSuccess : gmap string jsval → exn + unit) (today : string)
    (o : fetch_outcome jsval) (s : State) :=
  handleSubmit BACKEND_URL (st_formData s) (st_file s) onClose onSuccess today o s.
Definition close (onClose : exn + unit) (today : string) (s : State) :=
  handleClose onClose today s.

(** Whether a trace holds a network request. *)
Definition is_fetch (ev : effect) : bool :=
  match ev with Fetch _ => true | _ => false end.
Definition issues_fetch (t : list effect) : bool := existsb is_fetch t.

(** The messages a trace shows to the user, and the arguments it hands to
    the success callback. *)
Definition alerts (t : list effect) : list string :=
  omap (λ ev, match ev with Alert msg => Some msg | _ => None end) t.
Definition successes (t : list effect) : list (gmap string jsval) :=
  omap (λ ev, match ev with OnSuccess memory => Some memory | _ => None end) t.

(** The tags separated by single spaces, as the specification describes the
    [tags_input] field of the payload. It is defined apart from [join], the
    model of the built-in that the handler calls. *)
Fixpoint space_joined (tags : list string) : string :=
  match tags with
  | [] => ""
  | [tag] => tag
  | tag :: rest => tag +:+ " " +:+ space_joined rest
  end.

(** A request that fails: the promise of [fetch] rejects (network
    exception) or the response is not [ok] (HTTP failure). *)
Definition failed {B} (o : fetch_outcome B) : bool :=
  match o with
  | Rejects _ => true
  | Resolves res => negb (ok res)
  end.

(** [null] and [undefined]. *)
Definition nullish (v : jsval) : bool :=
  match v with
  | VUndefined | VNull => true
  | _ => false
  end.

(** The states the dialog can be in. Every handler runs from the current
    state [s]; its closure belongs to the render of some reachable state [c],
    which is [s] itself unless the handler was suspended or the render is
    stale. *)
Inductive reachable (BACKEND_URL : string) : State → Prop :=
| reach_initial today :
    reachable BACKEND_URL (initialState today)
| reach_handleTagToggle s tag :
    reachable BACKEND_URL s →
    reachable BACKEND_URL (final (handleTagToggle tag s))
| reach_handleGenerateTags s c o :
    reachable BACKEND_URL s → reachable BACKEND_URL c →
    reachable BACKEND_URL (final (handleGenerateTags (st_formData c) o s))
| reach_handleSubmit s c onClose onSuccess today o :
    reachable BACKEND_URL s → reachable BACKEND_URL c →
    reachable BACKEND_URL
      (final (handleSubmit BACKEND_URL (st_formData c) (st_file c)
                onClose onSuccess today o s))
| reach_handleClose s onClose today :
    reachable BACKEND_URL s →
    reachable BACKEND_URL (final (handleClose onClose today s))
| reach_onChange_text s c value :
    reachable BACKEND_URL s → reachable BACKEND_URL c →
    reachable BACKEND_URL (final (onChange_text (st_formData c) value s))
| reach_onChange_description s c value :
    reachable BACKEND_URL s → reachable BACKEND_URL c →
    reachable BACKEND_URL (final (onChange_description (st_formData c) value s))
| reach_onChange_upload_date s c value :
    reachable BACKEND_URL s → reachable BACKEND_URL c →
    reachable BACKEND_URL (final (onChange_upload_date (st_formData c) value s))
| reach_onChange_file s selected :
    reachable BACKEND_URL s →
    reachable BACKEND_URL (final (onChange_file selected s)).

(** The row of tag buttons the render draws:
    [availableTags.concat(formData.tags.filter(t => !availableTags.includes(t)))]
    mapped to one button per tag, with the tag as React key and the
    highlight [formData.tags.includes(tag)]. *)
Definition tagButtonKeys (formData : MemoryDraft) : list string :=
  availableTags ++ filter (λ t, negb (includes t availableTags)) (tags formData).

Definition tagButtons (formData : MemoryDraft) : list (string * bool) :=
  (λ tag, (tag, includes tag (tags formData))) <$> tagButtonKeys formData.

(** A click on the [i]-th tag button of the render of [s]:
    [onClick={() => handleTagToggle(tag)}]. There is nothing to click past
    the end of the row. *)
Definition clickTagButton (i : nat) (s : State) : (exn + unit) * State * list effect :=
  match tagButtonKeys (st_formData s) !! i with
  | Some tag => handleTagToggle tag s
  | None => (inr (), s, [])
  end.

(** How often a trace tells the parent to close the dialog. *)
Definition closings (t : list effect) : nat :=
  List.length (omap (λ ev, match ev with OnClose => Some () | _ => None end) t).

(** An answer of the upload endpoint the handler goes through with: the
    response is ok and its body is JSON other than [null]. *)
Definition accepted (o : fetch_outcome jsval) : bool :=
  match o with
  | Resolves res =>
      ok res && match parsed res with Some v => negb (nullish v) | None => false end
  | Rejects _ => false
  end.

End UploadMemoryDialog.

(** * Properties *)

Import JS Eff.

(** ** The built-ins *)

Section SetFacts.
Implicit Types (set iterable : list string) (x y : string).

Lemma includes_true x arr : includes x arr = true ↔ x ∈ arr.
Proof. unfold includes. by rewrite bool_decide_eq_true. Qed.

Lemma includes_false x arr : includes x arr = false ↔ x ∉ arr.
Proof. unfold includes. by rewrite bool_decide_eq_false. Qed.

Lemma elem_of_Set_add set x y : y ∈ Set_add set x ↔ y ∈ set ∨ y = x.
Proof.
  unfold Set_add. destruct (includes x set) eqn:Hin.
  - apply includes_true in Hin. split; [by left | intros [?| ->]; done].
  - rewrite elem_of_app, list_elem_of_singleton. done.
Qed.

Lemma NoDup_Set_add set x : NoDup set → NoDup (Set_add set x).
Proof.
  intros Hnd. unfold Set_add. destruct (includes x set) eqn:Hin; [done|].
  apply includes_false in Hin. apply NoDup_app. split_and!; [done| |apply NoDup_singleton].
  intros y Hy ->%list_elem_of_singleton. done.
Qed.

Lemma elem_of_fold_Set_add iterable : ∀ set y,
  y ∈ fold_left Set_add iterable set ↔ y ∈ set ∨ y ∈ iterable.
Proof.
  induction iterable as [|x rest IH]; intros set y; simpl.
  - rewrite elem_of_nil. tauto.
  - rewrite IH, elem_of_Set_add, elem_of_cons. tauto.
Qed.

Lemma NoDup_fold_Set_add iterable : ∀ set,
  NoDup set → NoDup (fold_left Set_add iterable set).
Proof.
  induction iterable as [|x rest IH]; intros set Hnd; simpl; [done|].
  by apply IH, NoDup_Set_add.
Qed.

(** Adding never moves what the set already holds. *)
Lemma fold_Set_add_prefix iterable : ∀ set,
  set `prefix_of` fold_left Set_add iterable set.
Proof.
  induction iterable as [|x rest IH]; intros set; simpl; [done|].
  etrans; [|apply IH]. unfold Set_add.
  destruct (includes x set); [done | by apply prefix_app_r].
Qed.

(** An array without repetition goes through a [Set] unchanged. *)
Lemma fold_Set_add_NoDup iterable : ∀ set,
  NoDup (set ++ iterable) → fold_left Set_add iterable set = set ++ iterable.
Proof.
  induction iterable as [|x rest IH]; intros set Hnd; simpl.
  - by rewrite app_nil_r.
  - assert (includes x set = false) as Hx.
    { apply includes_false. apply NoDup_app in Hnd as (_ & Hdisj & _).
      intros Hin. apply (Hdisj x Hin). by left. }
    unfold Set_add at 2. rewrite Hx.
    rewrite IH; rewrite <- app_assoc; done.
Qed.

Lemma elem_of_Set_from iterable y : y ∈ Set_from iterable ↔ y ∈ iterable.
Proof. unfold Set_from. rewrite elem_of_fold_Set_add, elem_of_nil. tauto. Qed.

Lemma NoDup_Set_from iterable : NoDup (Set_from iterable).
Proof. apply NoDup_fold_Set_add, NoDup_nil_2. Qed.

Lemma Set_from_app_prefix (prev more : list string) :
  NoDup prev → prev `prefix_of` Set_from (prev ++ more).
Proof.
  intros Hnd. unfold Set_from. rewrite fold_left_app.
  rewrite (fold_Set_add_NoDup prev []) by done. apply fold_Set_add_prefix.
Qed.
End SetFacts.

Section TrimFacts.
Lemma blank_String c s : blank (String c s) = is_white_space c && blank s.
Proof. reflexivity. Qed.

Lemma trimStart_blank s : blank s = true → trimStart s = "".
Proof.
  induction s as [|c s IH]; [done|].
  rewrite blank_String. intros [Hc Hs]%andb_true_iff.
  simpl. rewrite Hc. auto.
Qed.

Lemma trimStart_not_blank s :
  blank s = false →
  ∃ c s', trimStart s = String c s' ∧ is_white_space c = false.
Proof.
  induction s as [|c s IH]; [done|].
  rewrite blank_String. simpl.
  destruct (is_white_space c) eqn:Hc; simpl; [auto | eauto].
Qed.

Lemma trimEnd_keeps_head c s :
  is_white_space c = false → truthy (trimEnd (String c s)) = true.
Proof. intros Hc. simpl. rewrite Hc. by destruct (trimEnd s). Qed.

(** [!s.trim()] holds exactly for the blank strings. *)
Lemma truthy_trim s : truthy (trim s) = negb (blank s).
Proof.
  unfold trim. destruct (blank s) eqn:Hs.
  - by rewrite trimStart_blank.
  - destruct (trimStart_not_blank s Hs) as (c & s' & -> & Hc).
    by apply trimEnd_keeps_head.
Qed.
End TrimFacts.

(** ** The tag list of the draft *)

Import UploadMemoryDialog.

(** Runs a handler symbolically: unfolds the monad and the setters, leaving
    the data-dependent steps ([data_map_tag], [get_prop], the built-ins). *)
Ltac run_handler :=
  cbv beta iota zeta delta
    [handleGenerateTags handleSubmit handleTagToggle handleClose
     onChange_text onChange_description onChange_upload_date onChange_file
     toggleTag generateTags submit close
     bind ret throw lift emit modify try_catch try_finally try_catch_finally
     fetch Response_json Response_text_after_json alert
     setFormData setFormData_with setFile setIsUploading setIsGeneratingTags
     ok parsed];
  simpl.

#[local] Arguments data_map_tag : simpl never.
#[local] Arguments get_prop : simpl never.

(** Splits a run on how the calls it is stuck on complete. *)
Ltac case_completions :=
  repeat match goal with
         | |- context [match ?c with inl _ => _ | inr _ => _ end] => destruct c; simpl
         | u : unit |- _ => destruct u
         end.

Section TagFacts.
Implicit Types (s : State) (tag : string) (l : list string).

(** The array [handleTagToggle] computes from the previous one. *)
Lemma handleTagToggle_tags tag s :
  tags (st_formData (final (handleTagToggle tag s))) =
    if includes tag (tags (st_formData s))
    then filter (λ t, t ≠ tag) (tags (st_formData s))
    else tags (st_formData s) ++ [tag].
Proof. reflexivity. Qed.

Lemma toggled_off tag l : includes tag (filter (λ t, t ≠ tag) l) = false.
Proof. apply includes_false. rewrite list_elem_of_filter. tauto. Qed.

Lemma toggled_on tag l : includes tag (l ++ [tag]) = true.
Proof. apply includes_true. rewrite elem_of_app, list_elem_of_singleton. tauto. Qed.

Lemma handleTagToggle_NoDup tag s :
  NoDup (tags (st_formData s)) →
  NoDup (tags (st_formData (final (handleTagToggle tag s)))).
Proof.
  intros Hnd. rewrite handleTagToggle_tags.
  destruct (includes tag (tags (st_formData s))) eqn:Hin.
  - by apply NoDup_filter.
  - apply includes_false in Hin. apply NoDup_app.
    split_and!; [done| |apply NoDup_singleton].
    intros y Hy ->%list_elem_of_singleton. done.
Qed.

(** Whatever the outcome, [handleGenerateTags] leaves the tag list alone
    or replaces it by what a [Set] gives back. *)
Lemma handleGenerateTags_tags fd o s :
  let l := tags (st_formData (final (handleGenerateTags fd o s))) in
  l = tags (st_formData s) ∨
  ∃ aiTags, l = Set_from (tags (st_formData s) ++ aiTags).
Proof.
  unfold handleGenerateTags.
  destruct (negb (truthy (trim (text fd))) && negb (truthy (trim (description fd))));
    [by left|].
  destruct o as [[[] [data|]]|err]; run_handler; try by left.
  destruct (data_map_tag data) as [e|aiTags]; simpl; [by left|].
  right. by exists aiTags.
Qed.

Lemma handleGenerateTags_NoDup fd o s :
  NoDup (tags (st_formData s)) →
  NoDup (tags (st_formData (final (handleGenerateTags fd o s)))).
Proof.
  intros Hnd. destruct (handleGenerateTags_tags fd o s) as [->|[aiTags ->]];
    [done | apply NoDup_Set_from].
Qed.

Lemma handleClose_tags onClose today s :
  tags (st_formData (final (handleClose onClose today s))) = [].
Proof. reflexivity. Qed.

(** [handleSubmit] leaves the tag list alone or empties it. *)
Lemma handleSubmit_tags url fd file onClose onSuccess today o s :
  let l := tags (st_formData (final (handleSubmit url fd file onClose onSuccess
                                       today o s))) in
  l = tags (st_formData s) ∨ l = [].
Proof.
  destruct o as [[[] [urlImage|]]|err]; run_handler; try by left.
  destruct (get_prop urlImage "media") as [e|media]; simpl; [by left|].
  destruct (onSuccess _); simpl; [by left|].
  destruct onClose; by right.
Qed.
End TagFacts.

(** C6. Toggling the same tag twice gives back the tag set the draft had:
    the two tag lists are equal as sets of strings, and no other field of
    the state has moved. *)
Theorem toggleTag_twice (s : State) (tag : string) :
  let s' := final (toggleTag tag (final (toggleTag tag s))) in
  list_to_set (tags (st_formData s')) =@{gset string} list_to_set (tags (st_formData s))
  ∧ text (st_formData s') = text (st_formData s)
  ∧ description (st_formData s') = description (st_formData s)
  ∧ upload_date (st_formData s') = upload_date (st_formData s)
  ∧ st_file s' = st_file s
  ∧ st_isUploading s' = st_isUploading s
  ∧ st_isGeneratingTags s' = st_isGeneratingTags s.
Proof.
  intros s'. split; [|done].
  subst s'. unfold toggleTag. rewrite !handleTagToggle_tags.
  apply set_eq. intros x. rewrite !elem_of_list_to_set.
  destruct (includes tag (tags (st_formData s))) eqn:Hin.
  - rewrite toggled_off. apply includes_true in Hin.
    rewrite elem_of_app, list_elem_of_filter, list_elem_of_singleton.
    destruct (decide (x = tag)) as [->|Hne]; tauto.
  - rewrite toggled_on. apply includes_false in Hin.
    rewrite list_elem_of_filter, elem_of_app, list_elem_of_singleton.
    split; [tauto|]. intros Hx. split; [congruence | by left].
Qed.

(** C10. The tag list of the draft never holds a tag twice. The initial
    list is empty; [toggleTag], [generateTags] (the merge of the suggested
    tags), [close] and [submit] (the reset) each send a duplicate-free list
    to a duplicate-free list; hence no reachable state of the dialog has a
    duplicate, whatever the renders the handlers were created by. *)
Theorem tags_NoDup (url : string) :
  (∀ today, NoDup (tags (st_formData (initialState today))))
  ∧ (∀ tag s, NoDup (tags (st_formData s)) →
       NoDup (tags (st_formData (final (toggleTag tag s)))))
  ∧ (∀ o s, NoDup (tags (st_formData s)) →
       NoDup (tags (st_formData (final (generateTags o s)))))
  ∧ (∀ onClose today s, NoDup (tags (st_formData s)) →
       NoDup (tags (st_formData (final (close onClose today s)))))
  ∧ (∀ onClose onSuccess today o s, NoDup (tags (st_formData s)) →
       NoDup (tags (st_formData (final (submit url onClose onSuccess today o s)))))
  ∧ (∀ s, reachable url s → NoDup (tags (st_formData s))).
Proof.
  assert (∀ today fd file onClose onSuccess o s, NoDup (tags (st_formData s)) →
    NoDup (tags (st_formData (final (handleSubmit url fd file onClose onSuccess
                                       today o s)))))
    as Hsubmit.
  { intros today fd file onClose onSuccess o s Hnd.
    destruct (handleSubmit_tags url fd file onClose onSuccess today o s) as [->| ->];
      [done | apply NoDup_nil_2]. }
  split_and!.
  - intros today. apply NoDup_nil_2.
  - intros tag s. apply handleTagToggle_NoDup.
  - intros o s. apply handleGenerateTags_NoDup.
  - intros onClose today s _. unfold close. rewrite handleClose_tags. apply NoDup_nil_2.
  - intros onClose onSuccess today o s. apply Hsubmit.
  - intros s Hreach.
    induction Hreach as
      [ today | s tag _ IH | s c o _ IH _ _ | s c onClose onSuccess today o _ IH _ _
      | s onClose today _ _
      | s c value _ _ _ IHc | s c value _ _ _ IHc | s c value _ _ _ IHc
      | s selected _ IH ]; try done.
    + apply NoDup_nil_2.
    + by apply handleTagToggle_NoDup.
    + by apply handleGenerateTags_NoDup.
    + by apply Hsubmit.
    + apply NoDup_nil_2.
Qed.

(** A state the dialog reaches with a tag selected, where C10 applies. *)
Lemma tags_NoDup_witness :
  NoDup (tags (st_formData (final (toggleTag "Birthday" (initialState "2024-05-01"))))).
Proof.
  apply (proj2 (proj2 (proj2 (proj2 (proj2 (tags_NoDup "http://localhost:5000")))))).
  apply reach_handleTagToggle, reach_initial.
Defined.

(** ** Tag generation *)

Section GenerateTagsFacts.

(** The guard of [handleGenerateTags] fires exactly when title and
    description are both blank. *)
Lemma guard_blank (fd : MemoryDraft) :
  negb (truthy (trim (text fd))) && negb (truthy (trim (description fd))) =
  blank (text fd) && blank (description fd).
Proof. by rewrite !truthy_trim, !negb_involutive. Qed.

Lemma data_map_tag_records (aiTags : list string) :
  data_map_tag (PredictArray (ItemRecord <$> aiTags)) = inr aiTags.
Proof.
  unfold data_map_tag. induction aiTags as [|tag rest IH]; [done|].
  rewrite fmap_cons. cbn [map_item_tag item_tag]. by rewrite IH.
Qed.

(** The run of [handleGenerateTags] on an answer it accepts. *)
Lemma handleGenerateTags_accepts fd res data aiTags s :
  blank (text fd) && blank (description fd) = false →
  ok res = true → parsed res = Some data → data_map_tag data = inr aiTags →
  handleGenerateTags fd (Resolves res) s =
    (inr (),
     {| st_formData :=
          with_tags (st_formData s) (Set_from (tags (st_formData s) ++ aiTags));
        st_file := st_file s;
        st_isUploading := st_isUploading s;
        st_isGeneratingTags := false |},
     [Fetch {| url := FASTAPI_URL; method := "POST";
               headers := [("Content-Type", "application/json")];
               body := JsonBody (text fd) (description fd) 5;
               credentials_include := false |};
      Alert ("AI suggested tags: " +:+ join ", " aiTags)]).
Proof.
  intros Hguard Hok Hparsed Hdata. destruct res as [okb p]. simpl in *. subst.
  unfold handleGenerateTags. rewrite guard_blank, Hguard.
  run_handler. by rewrite Hdata.
Qed.
End GenerateTagsFacts.

(** C3. Merging the suggested tags into the draft gives the union of the
    two: a tag is in the result exactly when it was in the draft or is
    suggested, the result has no duplicate, and the tags the draft had keep
    their places at the front. With tags [["Birthday"]] and the answer
    [[{tag: "Birthday"}, {tag: "Outdoor"}]] the result is
    [["Birthday"; "Outdoor"]], of size 2. The merge applies to the state
    current when the answer arrives, [fd] being the draft of the render that
    started the request. *)
Theorem generateTags_merge_is_union :
  (∀ (fd : MemoryDraft) (s : State) (res : Response predict_json) (aiTags : list string),
     blank (text fd) && blank (description fd) = false →
     ok res = true →
     parsed res = Some (PredictArray (ItemRecord <$> aiTags)) →
     let merged := tags (st_formData (final (handleGenerateTags fd (Resolves res) s))) in
     (∀ x, x ∈ merged ↔ x ∈ tags (st_formData s) ∨ x ∈ aiTags)
     ∧ list_to_set merged =@{gset string}
         list_to_set (tags (st_formData s)) ∪ list_to_set aiTags
     ∧ NoDup merged
     ∧ (NoDup (tags (st_formData s)) → tags (st_formData s) `prefix_of` merged))
  ∧ (∀ (fd : MemoryDraft) (s : State),
       blank (text fd) && blank (description fd) = false →
       tags (st_formData s) = ["Birthday"] →
       let answer := {| ok := true;
                        parsed := Some (PredictArray
                                          [ItemRecord "Birthday"; ItemRecord "Outdoor"]) |} in
       let merged := tags (st_formData (final (handleGenerateTags fd (Resolves answer) s))) in
       merged = ["Birthday"; "Outdoor"] ∧ List.length merged = 2).
Proof.
  split.
  - intros fd s res aiTags Hguard Hok Hparsed merged. subst merged.
    rewrite (handleGenerateTags_accepts fd res _ aiTags s Hguard Hok Hparsed)
      by apply data_map_tag_records.
    simpl. split_and!.
    + intros x. by rewrite elem_of_Set_from, elem_of_app.
    + apply set_eq. intros x.
      by rewrite elem_of_union, !elem_of_list_to_set, elem_of_Set_from, elem_of_app.
    + apply NoDup_Set_from.
    + apply Set_from_app_prefix.
  - intros fd s Hguard Htags answer merged. subst merged.
    rewrite (handleGenerateTags_accepts fd answer _ ["Birthday"; "Outdoor"] s Hguard)
      by done.
    simpl. rewrite Htags. done.
Qed.

(** C3 at work: the draft holds "Vacation", the service suggests "Beach" and
    "Vacation". *)
Lemma generateTags_merge_is_union_witness :
  let fd := {| text := "Trip"; description := ""; upload_date := "2024-05-01";
               tags := ["Vacation"] |} in
  let s := {| st_formData := fd; st_file := None;
              st_isUploading := false; st_isGeneratingTags := false |} in
  let res := {| ok := true;
                parsed := Some (PredictArray (ItemRecord <$> ["Beach"; "Vacation"])) |} in
  NoDup (tags (st_formData (final (handleGenerateTags fd (Resolves res) s)))).
Proof.
  intros fd s res.
  apply (proj1 generateTags_merge_is_union fd s res ["Beach"; "Vacation"]); reflexivity.
Defined.

(** C4, as the specification words it, fails: a title of one space is not
    empty, yet the guard stops the request. *)
Lemma generateTags_guard_not_emptiness :
  let s := {| st_formData := {| text := " "; description := "";
                                upload_date := "2024-05-01"; tags := [] |};
              st_file := None; st_isUploading := false;
              st_isGeneratingTags := false |} in
  let o := Resolves {| ok := true; parsed := Some (PredictArray [ItemRecord "Outdoor"]) |} in
  text (st_formData s) ≠ ""
  ∧ generateTags o s = (inr (), s, [Alert "Please enter a title or description first!"])
  ∧ ¬ (∀ (s : State) (o : fetch_outcome predict_json),
         issues_fetch (trace (generateTags o s)) = true ↔
         (text (st_formData s) ≠ "" ∨ description (st_formData s) ≠ "")).
Proof.
  intros s o. split_and!; [done | reflexivity |].
  intros Hclaim. destruct (Hclaim s o) as [_ Hcall].
  assert (issues_fetch (trace (generateTags o s)) = false) as Hnone by reflexivity.
  rewrite Hcall in Hnone; [discriminate | by left].
Qed.

(** C4, amended. When title and description are both blank (empty or white
    space only, which is what [trim] leaves empty), [generateTags] shows the
    validation alert and does nothing else: no request, no change of state,
    the busy flag not even raised. This covers the draft with both fields
    empty. The request is issued exactly when one of the two fields holds a
    character that is not white space. *)
Theorem generateTags_guard (fd : MemoryDraft) (o : fetch_outcome predict_json) (s : State) :
  let r := handleGenerateTags fd o s in
  (blank (text fd) && blank (description fd) = true →
     r = (inr (), s, [Alert "Please enter a title or description first!"]))
  ∧ (text fd = "" → description fd = "" →
     r = (inr (), s, [Alert "Please enter a title or description first!"]))
  ∧ (issues_fetch (trace r) = true ↔
     blank (text fd) = false ∨ blank (description fd) = false).
Proof.
  intros r.
  assert (blank (text fd) && blank (description fd) = true →
          r = (inr (), s, [Alert "Please enter a title or description first!"]))
    as Hblocked.
  { intros Hguard. subst r. unfold handleGenerateTags.
    by rewrite guard_blank, Hguard. }
  split_and!; [done | |].
  - intros Ht Hd. apply Hblocked. by rewrite Ht, Hd.
  - rewrite <- andb_false_iff.
    destruct (blank (text fd) && blank (description fd)) eqn:Hguard.
    + rewrite Hblocked by done. done.
    + subst r. unfold handleGenerateTags. rewrite guard_blank, Hguard.
      split; [done|intros _].
      destruct o as [[[] [data|]]|err]; run_handler; try reflexivity.
      by destruct (data_map_tag data).
Qed.

(** C4 amended, on a draft whose title is a single space. *)
Lemma generateTags_guard_witness :
  let fd := {| text := " "; description := ""; upload_date := "2024-05-01";
               tags := ["Wedding"] |} in
  let s := {| st_formData := fd; st_file := None;
              st_isUploading := false; st_isGeneratingTags := false |} in
  handleGenerateTags fd (Rejects (NetworkError "Failed to fetch")) s =
    (inr (), s, [Alert "Please enter a title or description first!"]).
Proof.
  intros fd s.
  apply (proj1 (generateTags_guard fd (Rejects (NetworkError "Failed to fetch")) s)).
  reflexivity.
Defined.

(** C9. Once past the guard, a request that fails (the response is not ok,
    or the promise rejects) leaves every field of the draft, the selected
    file and the uploading flag as they were, shows exactly one failure
    alert, and ends with the generating flag cleared. *)
Theorem generateTags_failure (fd : MemoryDraft) (o : fetch_outcome predict_json) (s : State) :
  blank (text fd) && blank (description fd) = false →
  failed o = true →
  let r := handleGenerateTags fd o s in
  st_formData (final r) = st_formData s
  ∧ st_file (final r) = st_file s
  ∧ st_isUploading (final r) = st_isUploading s
  ∧ st_isGeneratingTags (final r) = false
  ∧ (alerts (trace r) = ["Failed to generate tags from AI"]
     ∨ alerts (trace r) = ["Error connecting to AI Tag Generator"])
  ∧ completion r = inr ().
Proof.
  intros Hguard Hfailed r. subst r.
  unfold handleGenerateTags. rewrite guard_blank, Hguard.
  destruct o as [[[] [data|]]|err]; try discriminate Hfailed;
    run_handler; split_and!; auto.
Qed.

(** C9 on an HTTP failure with a JSON error body. *)
Lemma generateTags_failure_witness :
  let fd := {| text := "Beach Day"; description := ""; upload_date := "2024-05-01";
               tags := ["Vacation"] |} in
  let s := {| st_formData := fd; st_file := None;
              st_isUploading := false; st_isGeneratingTags := false |} in
  let o := Resolves {| ok := false; parsed := Some PredictOther |} in
  st_formData (final (handleGenerateTags fd o s)) = fd.
Proof.
  intros fd s o.
  apply (generateTags_failure fd o s); reflexivity.
Defined.

(** ** Submission *)

Section SubmitFacts.
Implicit Types (fd : MemoryDraft) (file : option File) (s : State).

Lemma append_tags_fold (l : list string) : ∀ acc : list (string * jsval),
  fold_left (λ entries tag, FormData_append entries "tags" (VString tag)) l acc =
  acc ++ ((λ tag, ("tags", VString tag)) <$> l).
Proof.
  induction l as [|tag rest IH]; intros acc; simpl.
  - by rewrite app_nil_r.
  - rewrite IH. unfold FormData_append. by rewrite <- app_assoc.
Qed.

(** The entries of the payload, in the order they are appended. *)
Lemma formDataToSend_entries fd file :
  formDataToSend fd file =
    [("text", VString (text fd)); ("description", VString (description fd))]
    ++ ((λ tag, ("tags", VString tag)) <$> tags fd)
    ++ [("tags_input", VString (join " " (tags fd)))]
    ++ match file with Some f => [("files", VFile f)] | None => [] end.
Proof.
  unfold formDataToSend. rewrite append_tags_fold. unfold FormData_append.
  destruct file; simpl; rewrite <- ?app_assoc; simpl; by rewrite ?app_nil_r.
Qed.

(** Every run of [handleSubmit] ends with the uploading flag cleared and
    completes normally. *)
Lemma handleSubmit_clears_flag url fd file onClose onSuccess today o s :
  let r := handleSubmit url fd file onClose onSuccess today o s in
  st_isUploading (final r) = false ∧ completion r = inr ().
Proof.
  destruct o as [[[] [urlImage|]]|err]; run_handler; try done.
  by case_completions.
Qed.

(** The built-in [join] with a single space gives the space-joined string
    of the specification. *)
Lemma join_space (l : list string) : join " " l = space_joined l.
Proof.
  unfold join. induction l as [|tag rest IH]; [done|].
  destruct rest as [|tag' rest]; [done|].
  change (tag +:+ " " +:+ String.concat " " (tag' :: rest)
          = tag +:+ " " +:+ space_joined (tag' :: rest)).
  by rewrite IH.
Qed.
End SubmitFacts.

(** C7. The request [submit] sends goes to the upload endpoint, carries the
    credentials, and its multipart body holds exactly these entries, in this
    order: the title under [text], the description under [description], one
    [tags] entry per tag in the order of the draft, the tags joined by single
    spaces under [tags_input], and the file under [files] when, and only
    when, one is selected. It is the only request of the run. *)
Theorem submit_payload (url today : string) (fd : MemoryDraft) (file : option File)
    (onClose : exn + unit) (onSuccess : gmap string jsval → exn + unit)
    (o : fetch_outcome jsval) (s : State) :
  let payload :=
    [("text", VString (text fd)); ("description", VString (description fd))]
    ++ ((λ tag, ("tags", VString tag)) <$> tags fd)
    ++ [("tags_input", VString (space_joined (tags fd)))]
    ++ match file with Some f => [("files", VFile f)] | None => [] end in
  (∃ rest,
     trace (handleSubmit url fd file onClose onSuccess today o s) =
       PreventDefault
       :: Fetch {| url := url +:+ "/add-media"; method := "POST"; headers := [];
                   body := MultipartBody payload; credentials_include := true |}
       :: rest
     ∧ issues_fetch rest = false)
  ∧ (∀ v, ("files", v) ∈ payload ↔ ∃ f, file = Some f ∧ v = VFile f)
  ∧ (∀ v, ("tags", v) ∈ payload ↔ ∃ tag, tag ∈ tags fd ∧ v = VString tag).
Proof.
  intros payload. split_and!.
  - subst payload. rewrite <- join_space, <- formDataToSend_entries.
    destruct o as [[[] [urlImage|]]|err]; run_handler;
      try (eexists; split; [reflexivity|reflexivity]).
    case_completions; (eexists; split; [reflexivity|reflexivity]).
  - intros v. subst payload.
    rewrite !elem_of_app, !elem_of_cons, list_elem_of_fmap.
    split.
    + intros [[?|[?|[]%elem_of_nil]]|[(tag & ? & _)|[[?|[]%elem_of_nil]|Hfile]]];
        try congruence.
      destruct file as [f|]; [|by apply elem_of_nil in Hfile].
      apply list_elem_of_singleton in Hfile. exists f. split; congruence.
    + intros (f & -> & ->). do 3 right. by apply list_elem_of_singleton.
  - intros v. subst payload.
    rewrite !elem_of_app, !elem_of_cons, list_elem_of_fmap.
    split.
    + intros [[?|[?|[]%elem_of_nil]]|[(tag & ? & ?)|[[?|[]%elem_of_nil]|Hfile]]];
        try congruence.
      * exists tag. split; congruence.
      * destruct file; [apply list_elem_of_singleton in Hfile; congruence
                       | by apply elem_of_nil in Hfile].
    + intros (tag & Hin & ->). right. left. by exists tag.
Qed.

(** C7 on a draft with two tags, one of them with a space inside, and a
    file: the entries spelled out. *)
Lemma submit_payload_witness :
  let fd := {| text := "Beach Day"; description := "Sunny"; upload_date := "2024-05-01";
               tags := ["Vacation"; "Family Gathering"] |} in
  let file := Some {| name := "beach.jpg" |} in
  let s := {| st_formData := fd; st_file := file;
              st_isUploading := false; st_isGeneratingTags := false |} in
  ∃ rest,
    trace (handleSubmit "http://localhost:5000" fd file (inr ()) (λ _, inr ())
             "2024-05-02" (Rejects (NetworkError "Failed to fetch")) s) =
      PreventDefault
      :: Fetch {| url := "http://localhost:5000/add-media"; method := "POST";
                  headers := [];
                  body := MultipartBody
                            [("text", VString "Beach Day");
                             ("description", VString "Sunny");
                             ("tags", VString "Vacation");
                             ("tags", VString "Family Gathering");
                             ("tags_input", VString "Vacation Family Gathering");
                             ("files", VFile {| name := "beach.jpg" |})];
                  credentials_include := true |}
      :: rest.
Proof.
  intros fd file s.
  destruct (submit_payload "http://localhost:5000" "2024-05-02" fd file (inr ())
              (λ _, inr ()) (Rejects (NetworkError "Failed to fetch")) s)
    as [(rest & Htrace & _) _].
  exists rest. exact Htrace.
Defined.

(** C1. When the upload fails (the response is not ok, or the promise of
    [fetch] rejects) the draft and the selected file are what they were, the
    success callback is not called, the user sees one failure alert, and the
    uploading flag ends cleared. [s] is the state the continuation finds,
    [fd] and [file] the snapshot of the render that submitted. *)
Theorem submit_failure_keeps_draft (url today : string) (fd : MemoryDraft)
    (file : option File) (onClose : exn + unit)
    (onSuccess : gmap string jsval → exn + unit) (o : fetch_outcome jsval) (s : State) :
  failed o = true →
  let r := handleSubmit url fd file onClose onSuccess today o s in
  text (st_formData (final r)) = text (st_formData s)
  ∧ description (st_formData (final r)) = description (st_formData s)
  ∧ upload_date (st_formData (final r)) = upload_date (st_formData s)
  ∧ tags (st_formData (final r)) = tags (st_formData s)
  ∧ st_file (final r) = st_file s
  ∧ st_isUploading (final r) = false
  ∧ st_isGeneratingTags (final r) = st_isGeneratingTags s
  ∧ alerts (trace r) = ["Something went wrong while uploading"]
  ∧ successes (trace r) = []
  ∧ completion r = inr ().
Proof.
  intros Hfailed r. subst r.
  destruct o as [[[] [urlImage|]]|err]; try discriminate Hfailed;
    run_handler; by split_and!.
Qed.

(** C1 on a draft with a file selected, the server answering 500 with a
    JSON body. *)
Lemma submit_failure_keeps_draft_witness :
  let fd := {| text := "Beach Day"; description := "Sunny"; upload_date := "2024-05-01";
               tags := ["Vacation"] |} in
  let s := {| st_formData := fd; st_file := Some {| name := "beach.jpg" |};
              st_isUploading := false; st_isGeneratingTags := false |} in
  let o := Resolves {| ok := false; parsed := Some (VObject [("error", VString "boom")]) |} in
  tags (st_formData (final (submit "http://localhost:5000" (inr ()) (λ _, inr ())
                              "2024-05-02" o s))) = ["Vacation"].
Proof.
  intros fd s o.
  apply (submit_failure_keeps_draft "http://localhost:5000" "2024-05-02" fd
           (Some {| name := "beach.jpg" |}) (inr ()) (λ _, inr ()) o s).
  reflexivity.
Defined.

(** C2, as the specification words it, fails: an ok response whose body is
    not JSON makes [res.json()] reject before [res.ok] is looked at, and the
    draft stays. It stays too when the body is JSON [null], and when the
    success callback throws on a well-formed answer. *)
Lemma submit_ok_needs_json_body :
  let s := {| st_formData := {| text := "Beach Day"; description := "";
                                upload_date := "2024-05-01"; tags := [] |};
              st_file := Some {| name := "beach.jpg" |};
              st_isUploading := false; st_isGeneratingTags := false |} in
  let not_json := Resolves {| ok := true; parsed := None |} in
  let json_null := Resolves {| ok := true; parsed := Some VNull |} in
  let json_media :=
    Resolves {| ok := true; parsed := Some (VObject [("media", VString "img1.jpg")]) |} in
  let returns : gmap string jsval → exn + unit := λ _, inr () in
  let throws : gmap string jsval → exn + unit :=
    λ _, inl (TypeError "onSuccess is not a function") in
  let run onSuccess o :=
    submit "http://localhost:5000" (inr ()) onSuccess "2024-05-02" o s in
  (st_formData (final (run returns not_json)) = st_formData s
   ∧ alerts (trace (run returns not_json)) = ["Something went wrong while uploading"])
  ∧ (st_formData (final (run returns json_null)) = st_formData s
     ∧ alerts (trace (run returns json_null)) =
         ["Memory uploaded successfully!"; "Something went wrong while uploading"])
  ∧ (st_formData (final (run throws json_media)) = st_formData s
     ∧ alerts (trace (run throws json_media)) =
         ["Memory uploaded successfully!"; "Something went wrong while uploading"])
  ∧ ¬ (∀ (url today : string) (onClose : exn + unit)
         (onSuccess : gmap string jsval → exn + unit)
         (res : Response jsval) (s : State),
         ok res = true →
         st_formData (final (submit url onClose onSuccess today (Resolves res) s))
         = emptyDraft today).
Proof.
  intros s not_json json_null json_media returns throws run.
  split_and!; try reflexivity.
  intros Hclaim.
  specialize (Hclaim "http://localhost:5000" "2024-05-02" (inr ()) returns
                {| ok := true; parsed := None |} s eq_refl).
  discriminate Hclaim.
Qed.

(** C2, amended. When the response is ok, its body parses as JSON to a
    value other than [null], and the success callback returns normally from
    the call it gets, the draft is reset to its default shape: empty title
    and description, no tag, no file, the date of the day. The parent is
    told to close the dialog and the uploading flag ends cleared; this does
    not depend on how the close callback completes, which only decides
    whether a failure alert follows the success alert. *)
Theorem submit_success_resets (url today : string) (fd : MemoryDraft)
    (file : option File) (onClose : exn + unit)
    (onSuccess : gmap string jsval → exn + unit)
    (res : Response jsval) (urlImage : jsval) (s : State) :
  ok res = true →
  parsed res = Some urlImage →
  nullish urlImage = false →
  let r := handleSubmit url fd file onClose onSuccess today (Resolves res) s in
  (∀ memory, OnSuccess memory ∈ trace r → onSuccess memory = inr ()) →
  text (st_formData (final r)) = ""
  ∧ description (st_formData (final r)) = ""
  ∧ tags (st_formData (final r)) = []
  ∧ upload_date (st_formData (final r)) = today
  ∧ st_file (final r) = None
  ∧ st_formData (final r) = emptyDraft today
  ∧ st_isUploading (final r) = false
  ∧ OnClose ∈ trace r
  ∧ alerts (trace r) =
      match onClose with
      | inr _ => ["Memory uploaded successfully!"]
      | inl _ => ["Memory uploaded successfully!"; "Something went wrong while uploading"]
      end.
Proof.
  intros Hok Hparsed Hnull r. subst r.
  destruct res as [okb p]. simpl in Hok, Hparsed. subst okb p.
  assert (∃ media, get_prop urlImage "media" = inr media) as [media Hmedia].
  { destruct urlImage; try discriminate Hnull; eexists; reflexivity. }
  run_handler. rewrite Hmedia. simpl.
  match goal with |- context [onSuccess ?m] => destruct (onSuccess m) as [e|[]] eqn:Hcall end;
    simpl; intros Hreturns.
  - specialize (Hreturns _ ltac:(do 3 right; by left)). congruence.
  - destruct onClose as [e|[]]; simpl; split_and!; try done; do 4 right; by left.
Qed.

(** C2 amended, on the answer [{media: "img1.jpg"}]. *)
Lemma submit_success_resets_witness :
  let fd := {| text := "Beach Day"; description := "Sunny"; upload_date := "2024-05-01";
               tags := ["Vacation"] |} in
  let s := {| st_formData := fd; st_file := Some {| name := "beach.jpg" |};
              st_isUploading := false; st_isGeneratingTags := false |} in
  let res := {| ok := true; parsed := Some (VObject [("media", VString "img1.jpg")]) |} in
  st_formData (final (submit "http://localhost:5000" (inr ()) (λ _, inr ())
                        "2024-05-02" (Resolves res) s))
  = emptyDraft "2024-05-02".
Proof.
  intros fd s res.
  apply (submit_success_resets "http://localhost:5000" "2024-05-02" fd
           (Some {| name := "beach.jpg" |}) (inr ()) (λ _, inr ()) res
           (VObject [("media", VString "img1.jpg")]) s); reflexivity.
Defined.

(** C8. A draft titled "Beach Day" with a file selected and no tag is
    submitted, and the endpoint answers ok with [{media: "img1.jpg"}]: the
    success callback is called once, with an object whose [tags] is the
    empty string and whose [media] is "img1.jpg"; it also carries the
    entries of the payload. *)
Theorem submit_beach_day (url today : string) (f : File) (onClose : exn + unit)
    (onSuccess : gmap string jsval → exn + unit) (s : State) :
  text (st_formData s) = "Beach Day" →
  tags (st_formData s) = [] →
  st_file s = Some f →
  let res := {| ok := true; parsed := Some (VObject [("media", VString "img1.jpg")]) |} in
  ∃ memory,
    successes (trace (submit url onClose onSuccess today (Resolves res) s)) = [memory]
    ∧ memory !! "tags" = Some (VString "")
    ∧ memory !! "media" = Some (VString "img1.jpg")
    ∧ memory !! "text" = Some (VString "Beach Day")
    ∧ memory !! "description" = Some (VString (description (st_formData s)))
    ∧ memory !! "tags_input" = Some (VString "")
    ∧ memory !! "files" = Some (VFile f).
Proof.
  intros Htext Htags Hfile res.
  destruct s as [[title descr date tgs] fl up gen]. simpl in Htext, Htags, Hfile.
  subst title tgs fl.
  run_handler. unfold get_prop. simpl.
  case_completions; (eexists; split; [reflexivity|]); split_and!; by vm_compute.
Qed.

(** C8 on a concrete draft. *)
Lemma submit_beach_day_witness :
  let s := {| st_formData := {| text := "Beach Day"; description := "";
                                upload_date := "2024-05-01"; tags := [] |};
              st_file := Some {| name := "beach.jpg" |};
              st_isUploading := false; st_isGeneratingTags := false |} in
  let res := {| ok := true; parsed := Some (VObject [("media", VString "img1.jpg")]) |} in
  ∃ memory,
    successes (trace (submit "http://localhost:5000" (inr ()) (λ _, inr ())
                        "2024-05-02" (Resolves res) s)) = [memory]
    ∧ memory !! "tags" = Some (VString "")
    ∧ memory !! "media" = Some (VString "img1.jpg").
Proof.
  intros s res.
  destruct (submit_beach_day "http://localhost:5000" "2024-05-02"
              {| name := "beach.jpg" |} (inr ()) (λ _, inr ()) s eq_refl eq_refl eq_refl)
    as (memory & Hcall & Htags & Hmedia & _).
  exists memory. by split_and!.
Defined.

(** ** The mail dispatcher *)

Ltac run_sendMail :=
  cbv beta iota zeta delta
    [Mailer.sendMail Mailer.emails_send Mailer.optional_prop error_message
     try_catch bind emit ret throw lift trace completion get_prop];
  simpl.



(** * Further properties of the handlers *)

(** ** Toggling a tag *)

Section ToggleFacts.
Implicit Types (s : State) (tag x : string) (l : list string).

Lemma filter_ne_absent tag l : tag ∉ l → filter (λ t, t ≠ tag) l = l.
Proof.
  induction l as [|y l IH]; [done|].
  intros Hnotin. apply not_elem_of_cons in Hnotin as [Hne Hl].
  rewrite filter_cons_True by congruence. by rewrite IH.
Qed.

Lemma filter_ne_twice tag l :
  filter (λ t, t ≠ tag) (filter (λ t, t ≠ tag) l) = filter (λ t, t ≠ tag) l.
Proof. apply filter_ne_absent. rewrite list_elem_of_filter. tauto. Qed.

Lemma filter_ne_snoc tag l :
  filter (λ t, t ≠ tag) (l ++ [tag]) = filter (λ t, t ≠ tag) l.
Proof.
  rewrite filter_app, filter_cons_False, filter_nil by tauto.
  apply app_nil_r.
Qed.

(** The state [handleTagToggle] leaves. *)
Lemma handleTagToggle_final tag s :
  final (handleTagToggle tag s) =
    {| st_formData :=
         with_tags (st_formData s)
           (if includes tag (tags (st_formData s))
            then filter (λ t, t ≠ tag) (tags (st_formData s))
            else tags (st_formData s) ++ [tag]);
       st_file := st_file s;
       st_isUploading := st_isUploading s;
       st_isGeneratingTags := st_isGeneratingTags s |}.
Proof. reflexivity. Qed.

Lemma handleTagToggle_elem_of tag s x :
  x ∈ tags (st_formData (final (handleTagToggle tag s))) ↔
  (x = tag ∧ tag ∉ tags (st_formData s)) ∨ (x ≠ tag ∧ x ∈ tags (st_formData s)).
Proof.
  rewrite handleTagToggle_tags.
  destruct (includes tag (tags (st_formData s))) eqn:Hin.
  - apply includes_true in Hin. rewrite list_elem_of_filter. tauto.
  - apply includes_false in Hin. rewrite elem_of_app, list_elem_of_singleton.
    destruct (decide (x = tag)) as [->|Hne]; tauto.
Qed.
End ToggleFacts.

(** X1. A toggle flips the membership of its tag and of no other: the tag
    is in the new list exactly when it was not in the old one (every
    occurrence is removed, were there several), and any other tag is in the
    new list exactly when it was in the old one. *)
Theorem handleTagToggle_flips (tag : string) (s : State) :
  let s' := final (handleTagToggle tag s) in
  (tag ∈ tags (st_formData s') ↔ tag ∉ tags (st_formData s))
  ∧ (∀ x, x ≠ tag → (x ∈ tags (st_formData s') ↔ x ∈ tags (st_formData s))).
Proof.
  intros s'. subst s'. split.
  - rewrite handleTagToggle_elem_of. tauto.
  - intros x Hne. rewrite handleTagToggle_elem_of. tauto.
Qed.

(** X2. Three toggles of the same tag leave the very state one toggle
    leaves, order of the list included. *)
Theorem handleTagToggle_thrice (tag : string) (s : State) :
  final (handleTagToggle tag (final (handleTagToggle tag (final (handleTagToggle tag s)))))
  = final (handleTagToggle tag s).
Proof.
  rewrite !handleTagToggle_final. simpl. unfold with_tags. simpl.
  do 2 f_equal.
  destruct (includes tag (tags (st_formData s))) eqn:Hin.
  - rewrite toggled_off, toggled_on. by rewrite filter_ne_snoc, filter_ne_twice.
  - rewrite toggled_on, toggled_off.
    apply includes_false in Hin. by rewrite filter_ne_snoc, filter_ne_absent.
Qed.

(** X3. Toggling on and off a tag the draft does not hold gives back the
    state exactly as it was. *)
Theorem handleTagToggle_on_off (tag : string) (s : State) :
  tag ∉ tags (st_formData s) →
  final (handleTagToggle tag (final (handleTagToggle tag s))) = s.
Proof.
  intros Hnotin. rewrite !handleTagToggle_final. simpl.
  pose proof Hnotin as Hin. apply includes_false in Hin. rewrite Hin, toggled_on.
  rewrite filter_ne_snoc, filter_ne_absent by done.
  by destruct s as [[] ? ? ?].
Qed.

Lemma handleTagToggle_on_off_witness :
  let s := {| st_formData := {| text := "Trip"; description := "";
                                upload_date := "2024-05-01";
                                tags := ["Vacation"; "Festival"] |};
              st_file := None; st_isUploading := false;
              st_isGeneratingTags := false |} in
  final (handleTagToggle "Wedding" (final (handleTagToggle "Wedding" s))) = s.
Proof.
  intros s. apply (handleTagToggle_on_off "Wedding" s).
  apply includes_false. reflexivity.
Defined.

(** X4. Toggling off and on a tag the draft holds moves it to the end of
    the list: the other tags keep their order, and on a duplicate-free list
    the result is a permutation of the original. *)
Theorem handleTagToggle_off_on (tag : string) (s : State) :
  tag ∈ tags (st_formData s) →
  let l' := tags (st_formData (final (handleTagToggle tag (final (handleTagToggle tag s))))) in
  l' = filter (λ t, t ≠ tag) (tags (st_formData s)) ++ [tag]
  ∧ (NoDup (tags (st_formData s)) → l' ≡ₚ tags (st_formData s)).
Proof.
  intros Hin l'.
  assert (l' = filter (λ t, t ≠ tag) (tags (st_formData s)) ++ [tag]) as Hl'.
  { subst l'. rewrite !handleTagToggle_tags.
    apply includes_true in Hin. by rewrite Hin, toggled_off. }
  split; [done|]. intros Hnd. rewrite Hl'.
  apply NoDup_Permutation; [|done|].
  - apply NoDup_app. split_and!; [by apply NoDup_filter| |apply NoDup_singleton].
    intros y [Hne _]%list_elem_of_filter ->%list_elem_of_singleton. done.
  - intros x. rewrite elem_of_app, list_elem_of_filter, list_elem_of_singleton.
    destruct (decide (x = tag)) as [->|Hne]; tauto.
Qed.

Lemma handleTagToggle_off_on_witness :
  let s := {| st_formData := {| text := "Trip"; description := "";
                                upload_date := "2024-05-01";
                                tags := ["Vacation"; "Festival"] |};
              st_file := None; st_isUploading := false;
              st_isGeneratingTags := false |} in
  tags (st_formData (final (handleTagToggle "Vacation" (final (handleTagToggle "Vacation" s)))))
  = filter (λ t, t ≠ "Vacation") ["Vacation"; "Festival"] ++ ["Vacation"].
Proof.
  intros s. apply (handleTagToggle_off_on "Vacation" s).
  apply includes_true. reflexivity.
Defined.

(** X5. Toggles of two tags commute as far as the tag set goes: in either
    order the same tags are selected. (The lists may differ in order.) *)
Theorem handleTagToggle_commute (a b : string) (s : State) :
  list_to_set (tags (st_formData (final (handleTagToggle a (final (handleTagToggle b s))))))
  =@{gset string}
  list_to_set (tags (st_formData (final (handleTagToggle b (final (handleTagToggle a s)))))).
Proof.
  apply set_eq. intros x. rewrite !elem_of_list_to_set, !handleTagToggle_elem_of.
  destruct (decide (a = b)) as [->|Hab]; [done|].
  destruct (decide (x = a)) as [Hxa|Hxa], (decide (x = b)) as [Hxb|Hxb];
    try congruence; subst; tauto.
Qed.

(** ** Merging suggested tags *)

Section MergeFacts.
Implicit Types (set a b l : list string) (x : string).


Lemma Set_from_NoDup l : NoDup l → Set_from l = l.
Proof. intros Hnd. unfold Set_from. by rewrite (fold_Set_add_NoDup l []). Qed.

(** What lies in front of the set stays there, and screens the additions. *)
Lemma fold_Set_add_split l : ∀ a b,
  fold_left Set_add l (a ++ b) = a ++ fold_left Set_add (filter (λ x, x ∉ a) l) b.
Proof.
  induction l as [|y l IH]; intros a b; [done|]. simpl.
  destruct (decide (y ∈ a)) as [Hya|Hya].
  - rewrite filter_cons_False by tauto.
    assert (Set_add (a ++ b) y = a ++ b) as ->; [|apply IH].
    unfold Set_add. assert (includes y (a ++ b) = true) as ->; [|done].
    apply includes_true, elem_of_app. by left.
  - rewrite filter_cons_True by done. simpl. unfold Set_add at 2 4.
    destruct (includes y b) eqn:Hyb.
    + assert (includes y (a ++ b) = true) as ->; [|apply IH].
      apply includes_true, elem_of_app. right. by apply includes_true.
    + assert (includes y (a ++ b) = false) as ->.
      { apply includes_false. rewrite elem_of_app.
        apply includes_false in Hyb. tauto. }
      rewrite <- app_assoc. apply IH.
Qed.

Lemma map_item_tag_null (before after : list predict_item) :
  map_item_tag (before ++ ItemNull :: after)
  = inl (TypeError "Cannot read properties of null").
Proof.
  induction before as [|item before IH]; [done|].
  destruct item as [|tag]; [done|]. simpl. by rewrite IH.
Qed.

(** The run of [handleGenerateTags] on an ok answer it cannot use. *)
Lemma handleGenerateTags_throws fd (res : Response predict_json) s :
  blank (text fd) && blank (description fd) = false →
  ok res = true →
  (parsed res = None ∨ ∃ data e, parsed res = Some data ∧ data_map_tag data = inl e) →
  ∃ e,
    handleGenerateTags fd (Resolves res) s =
      (inr (),
       {| st_formData := st_formData s; st_file := st_file s;
          st_isUploading := st_isUploading s; st_isGeneratingTags := false |},
       [Fetch {| url := FASTAPI_URL; method := "POST";
                 headers := [("Content-Type", "application/json")];
                 body := JsonBody (text fd) (description fd) 5;
                 credentials_include := false |};
        ConsoleError [LErr e];
        Alert "Error connecting to AI Tag Generator"]).
Proof.
  intros Hguard Hok Hbody. destruct res as [okb p]. simpl in *. subst okb.
  unfold handleGenerateTags. rewrite guard_blank, Hguard.
  destruct Hbody as [->|(data & e & -> & Hdata)]; run_handler.
  - by eexists.
  - rewrite Hdata. simpl. by eexists.
Qed.
End MergeFacts.

(** X6. On a duplicate-free draft, an accepted answer leaves the tags of the
    draft where they are and appends the suggestions the draft did not hold,
    each once, in the order they are first suggested. The other fields of
    the draft, the file and the uploading flag do not move. *)
Theorem handleGenerateTags_appends_new (fd : MemoryDraft) (s : State)
    (res : Response predict_json) (aiTags : list string) :
  blank (text fd) && blank (description fd) = false →
  ok res = true →
  parsed res = Some (PredictArray (ItemRecord <$> aiTags)) →
  NoDup (tags (st_formData s)) →
  final (handleGenerateTags fd (Resolves res) s) =
    {| st_formData :=
         with_tags (st_formData s)
           (tags (st_formData s)
            ++ Set_from (filter (λ x, x ∉ tags (st_formData s)) aiTags));
       st_file := st_file s;
       st_isUploading := st_isUploading s;
       st_isGeneratingTags := false |}.
Proof.
  intros Hguard Hok Hparsed Hnd.
  rewrite (handleGenerateTags_accepts fd res _ aiTags s Hguard Hok Hparsed)
    by apply data_map_tag_records.
  unfold final. simpl. do 2 f_equal.
  unfold Set_from. rewrite fold_left_app.
  rewrite (fold_Set_add_NoDup (tags (st_formData s)) []) by done. simpl.
  rewrite <- (app_nil_r (tags (st_formData s))) at 1.
  apply fold_Set_add_split.
Qed.

Lemma handleGenerateTags_appends_new_witness :
  let fd := {| text := "Trip"; description := ""; upload_date := "2024-05-01";
               tags := ["Vacation"; "Festival"] |} in
  let s := {| st_formData := fd; st_file := None;
              st_isUploading := false; st_isGeneratingTags := false |} in
  let res := {| ok := true;
                parsed := Some (PredictArray
                                  (ItemRecord <$> ["Beach"; "Vacation"; "Beach"; "Sea"])) |} in
  tags (st_formData (final (handleGenerateTags fd (Resolves res) s)))
  = ["Vacation"; "Festival"; "Beach"; "Sea"].
Proof.
  intros fd s res.
  rewrite (handleGenerateTags_appends_new fd s res ["Beach"; "Vacation"; "Beach"; "Sea"]);
    try reflexivity.
  apply (bool_decide_unpack _). vm_compute. exact I.
Defined.



(** X8. An ok answer the handler cannot use is refused whole: when the body
    is not JSON, is JSON but not an array, or is an array with a [null] item
    anywhere in it, no suggested tag reaches the draft (not even those
    before the [null]), the state is left as it was with the generating flag
    cleared, and the user sees the connection-error alert. *)
Theorem handleGenerateTags_refuses_malformed (fd : MemoryDraft) (s : State)
    (res : Response predict_json) :
  blank (text fd) && blank (description fd) = false →
  ok res = true →
  (parsed res = None
   ∨ parsed res = Some PredictOther
   ∨ ∃ before after, parsed res = Some (PredictArray (before ++ ItemNull :: after))) →
  let r := handleGenerateTags fd (Resolves res) s in
  final r = {| st_formData := st_formData s; st_file := st_file s;
               st_isUploading := st_isUploading s; st_isGeneratingTags := false |}
  ∧ alerts (trace r) = ["Error connecting to AI Tag Generator"]
  ∧ completion r = inr ().
Proof.
  intros Hguard Hok Hbody r. subst r.
  destruct (handleGenerateTags_throws fd res s Hguard Hok) as [e ->]; [|done].
  destruct Hbody as [?|[?|(before & after & ?)]]; [by left | right..].
  - by exists PredictOther, (TypeError "data.map is not a function").
  - eexists _, _. split; [done|]. apply map_item_tag_null.
Qed.

Lemma handleGenerateTags_refuses_malformed_witness :
  let fd := {| text := "Trip"; description := ""; upload_date := "2024-05-01";
               tags := ["Vacation"] |} in
  let s := {| st_formData := fd; st_file := None;
              st_isUploading := false; st_isGeneratingTags := false |} in
  let res := {| ok := true;
                parsed := Some (PredictArray [ItemRecord "Beach"; ItemNull]) |} in
  alerts (trace (handleGenerateTags fd (Resolves res) s))
  = ["Error connecting to AI Tag Generator"].
Proof.
  intros fd s res.
  apply (handleGenerateTags_refuses_malformed fd s res); try reflexivity.
  right. right. by exists [ItemRecord "Beach"], [].
Defined.

(** X9. Past the guard the handler sends one request, whatever follows: a
    POST to the tagging service with a JSON body holding the title and the
    description of the render as they are (not trimmed) and [top_k] 5,
    without credentials; nothing else in the run is a request. *)
Theorem handleGenerateTags_request (fd : MemoryDraft) (o : fetch_outcome predict_json)
    (s : State) :
  blank (text fd) && blank (description fd) = false →
  ∃ rest,
    trace (handleGenerateTags fd o s) =
      Fetch {| url := "http://127.0.0.1:8000/predict-tags/"; method := "POST";
               headers := [("Content-Type", "application/json")];
               body := JsonBody (text fd) (description fd) 5;
               credentials_include := false |}
      :: rest
    ∧ issues_fetch rest = false.
Proof.
  intros Hguard. unfold handleGenerateTags. rewrite guard_blank, Hguard.
  destruct o as [[[] [data|]]|err]; run_handler;
    try (eexists; split; reflexivity).
  destruct (data_map_tag data); simpl; eexists; split; reflexivity.
Qed.

Lemma handleGenerateTags_request_witness :
  let fd := {| text := " Trip "; description := ""; upload_date := "2024-05-01";
               tags := [] |} in
  let s := {| st_formData := fd; st_file := None;
              st_isUploading := false; st_isGeneratingTags := false |} in
  ∃ rest,
    trace (handleGenerateTags fd (Rejects (NetworkError "Failed to fetch")) s) =
      Fetch {| url := "http://127.0.0.1:8000/predict-tags/"; method := "POST";
               headers := [("Content-Type", "application/json")];
               body := JsonBody " Trip " "" 5;
               credentials_include := false |}
      :: rest
    ∧ issues_fetch rest = false.
Proof.
  intros fd s.
  apply (handleGenerateTags_request fd (Rejects (NetworkError "Failed to fetch")) s).
  reflexivity.
Defined.

(** X10. An accepted answer that arrives after the dialog was closed is not
    dropped: the merge applies to the draft the reset installed, which then
    holds the suggested tags (each once, in order of first suggestion) under
    an empty title and description. *)
Theorem handleGenerateTags_after_close (fd : MemoryDraft) (s : State) (today : string)
    (onClose : exn + unit) (res : Response predict_json) (aiTags : list string) :
  blank (text fd) && blank (description fd) = false →
  ok res = true →
  parsed res = Some (PredictArray (ItemRecord <$> aiTags)) →
  let closed := final (handleClose onClose today s) in
  let s' := final (handleGenerateTags fd (Resolves res) closed) in
  st_formData s' = {| text := ""; description := ""; upload_date := today;
                      tags := Set_from aiTags |}
  ∧ st_file s' = None
  ∧ (aiTags ≠ [] → tags (st_formData s') ≠ []).
Proof.
  intros Hguard Hok Hparsed closed s'. subst s' closed.
  rewrite (handleGenerateTags_accepts fd res _ aiTags _ Hguard Hok Hparsed)
    by apply data_map_tag_records.
  simpl. split_and!; [done..|].
  intros Hne Hnil. destruct aiTags as [|tag rest]; [done|].
  assert (tag ∈ Set_from (tag :: rest)) as Hin by (apply elem_of_Set_from; by left).
  rewrite Hnil in Hin. by apply elem_of_nil in Hin.
Qed.

Lemma handleGenerateTags_after_close_witness :
  let fd := {| text := "Trip"; description := ""; upload_date := "2024-05-01";
               tags := ["Vacation"] |} in
  let s := {| st_formData := fd; st_file := Some {| name := "trip.jpg" |};
              st_isUploading := false; st_isGeneratingTags := true |} in
  let res := {| ok := true;
                parsed := Some (PredictArray (ItemRecord <$> ["Beach"; "Vacation"])) |} in
  st_formData (final (handleGenerateTags fd (Resolves res)
                        (final (handleClose (inr ()) "2024-05-02" s))))
  = {| text := ""; description := ""; upload_date := "2024-05-02";
       tags := Set_from ["Beach"; "Vacation"] |}.
Proof.
  intros fd s res.
  apply (handleGenerateTags_after_close fd s "2024-05-02" (inr ()) res
           ["Beach"; "Vacation"]);
    reflexivity.
Defined.

(** ** The upload and its callback *)

#[local] Set Warnings "-clear-no-such-hyp".

Section FromEntriesFacts.
Implicit Types (entries : list (string * jsval)) (k : string) (v : jsval).

Lemma fromEntries_snoc entries k v :
  fromEntries (entries ++ [(k, v)]) = <[k := v]> (fromEntries entries).
Proof. unfold fromEntries. by rewrite fold_left_app. Qed.

(** A key reads back the value of its last entry. *)
Lemma fromEntries_lookup entries k :
  fromEntries entries !! k = snd <$> last (filter (λ kv, kv.1 = k) entries).
Proof.
  induction entries as [|[k' v] entries IH] using rev_ind; [done|].
  rewrite fromEntries_snoc, filter_app.
  destruct (decide (k' = k)) as [->|Hne].
  - rewrite lookup_insert_eq, filter_cons_True, filter_nil by done.
    by rewrite last_snoc.
  - rewrite lookup_insert_ne, filter_cons_False, filter_nil, app_nil_r by done.
    apply IH.
Qed.

Lemma dom_fromEntries entries :
  dom (fromEntries entries) =@{gset string} list_to_set (entries.*1).
Proof.
  induction entries as [|[k v] entries IH] using rev_ind; [done|].
  rewrite fromEntries_snoc, dom_insert_L, IH, fmap_app, list_to_set_app_L.
  simpl. set_solver.
Qed.

Lemma filter_tags_entries k (l : list string) :
  k ≠ "tags" →
  filter (λ kv : string * jsval, kv.1 = k) ((λ tag, ("tags", VString tag)) <$> l) = [].
Proof.
  intros Hne. induction l as [|tag l IH]; [done|].
  rewrite fmap_cons, filter_cons_False; [done|]. simpl. congruence.
Qed.

(** What the object built from the payload holds under a key other than
    [tags]. *)
Lemma fromEntries_payload_lookup fd file k :
  k ≠ "tags" →
  fromEntries (formDataToSend fd file) !! k =
    if decide (k = "text") then Some (VString (text fd))
    else if decide (k = "description") then Some (VString (description fd))
    else if decide (k = "tags_input") then Some (VString (join " " (tags fd)))
    else if decide (k = "files") then VFile <$> file
    else None.
Proof.
  intros Hne. rewrite fromEntries_lookup, formDataToSend_entries.
  rewrite !filter_app, filter_tags_entries by done.
  rewrite !filter_cons, !filter_nil. simpl.
  destruct file as [f|];
    rewrite ?filter_cons, ?filter_nil; simpl;
    repeat case_decide; simplify_eq; done.
Qed.
End FromEntriesFacts.

(** X11. The two callbacks and the reset go together as follows. On an
    accepted answer (ok, JSON body other than [null]) the success callback
    is called once; when that call returns, the parent is told once to close
    and draft and file are reset, however the close callback completes; when
    that call throws, the parent is not told to close and draft and file are
    kept. On any other outcome neither callback is called and draft and file
    are kept. In every case the uploading flag ends cleared and the handler
    completes normally. *)
Theorem handleSubmit_reset_follows_callback (url today : string) (fd : MemoryDraft)
    (file : option File) (onClose : exn + unit)
    (onSuccess : gmap string jsval → exn + unit) (o : fetch_outcome jsval) (s : State) :
  let r := handleSubmit url fd file onClose onSuccess today o s in
  st_isUploading (final r) = false
  ∧ completion r = inr ()
  ∧ if accepted o
    then ∃ memory,
           successes (trace r) = [memory]
           ∧ match onSuccess memory with
             | inr _ =>
                 closings (trace r) = 1
                 ∧ st_formData (final r) = emptyDraft today
                 ∧ st_file (final r) = None
             | inl _ =>
                 closings (trace r) = 0
                 ∧ st_formData (final r) = st_formData s
                 ∧ st_file (final r) = st_file s
             end
    else successes (trace r) = []
         ∧ closings (trace r) = 0
         ∧ st_formData (final r) = st_formData s
         ∧ st_file (final r) = st_file s.
Proof.
  intros r. subst r.
  destruct o as [[[] [urlImage|]]|err]; try (run_handler; by split_and!).
  destruct urlImage; run_handler; unfold get_prop; simpl; try (by split_and!);
    match goal with
    | |- context [onSuccess ?m] => destruct (onSuccess m) as [e|[]] eqn:Hcall
    end; simpl;
    try (destruct onClose as [e'|[]]; simpl);
    (split_and!; try done);
    eexists; (split; [reflexivity|]); by rewrite Hcall.
Qed.

(** X12. The object handed to the success callback. It holds the title
    under [text], the description, the space-joined tags under
    [tags_input], the comma-joined tags under [tags] (in place of the last
    [tags] entry of the payload), the [media] property of the answer
    ([undefined] when the answer has none), and the file under [files] when
    one was selected. It has no other key: the date of the draft is not
    passed on. All values come from the render that submitted. *)
Theorem handleSubmit_callback_object (url today : string) (fd : MemoryDraft)
    (file : option File) (onClose : exn + unit)
    (onSuccess : gmap string jsval → exn + unit)
    (res : Response jsval) (urlImage : jsval) (s : State) :
  ok res = true →
  parsed res = Some urlImage →
  nullish urlImage = false →
  ∃ memory,
    successes (trace (handleSubmit url fd file onClose onSuccess today
                        (Resolves res) s)) = [memory]
    ∧ memory !! "text" = Some (VString (text fd))
    ∧ memory !! "description" = Some (VString (description fd))
    ∧ memory !! "tags_input" = Some (VString (join " " (tags fd)))
    ∧ memory !! "tags" = Some (VString (join ", " (tags fd)))
    ∧ memory !! "media" =
        Some (match urlImage with
              | VObject members => get_member "media" members
              | _ => VUndefined
              end)
    ∧ memory !! "files" = VFile <$> file
    ∧ memory !! "upload_date" = None
    ∧ dom memory =@{gset string}
        {[ "text"; "description"; "tags_input"; "tags"; "media" ]}
        ∪ (match file with Some _ => {[ "files" ]} | None => ∅ end).
Proof.
  intros Hok Hparsed Hnull. destruct res as [okb p]. simpl in Hok, Hparsed. subst okb p.
  assert (get_prop urlImage "media" =
          inr (match urlImage with
               | VObject members => get_member "media" members
               | _ => VUndefined
               end)) as Hmedia.
  { by destruct urlImage. }
  set (media := match urlImage with
                | VObject members => get_member "media" members
                | _ => VUndefined
                end) in *.
  exists (<["media" := media]>
            (<["tags" := VString (join ", " (tags fd))]>
               (fromEntries (formDataToSend fd file)))).
  split.
  { run_handler. rewrite Hmedia. simpl. by case_completions. }
  split_and!.
  - rewrite !lookup_insert_ne, fromEntries_payload_lookup by done. done.
  - rewrite !lookup_insert_ne, fromEntries_payload_lookup by done. done.
  - rewrite !lookup_insert_ne, fromEntries_payload_lookup by done. done.
  - rewrite lookup_insert_ne, lookup_insert_eq by done. done.
  - by rewrite lookup_insert_eq.
  - rewrite !lookup_insert_ne, fromEntries_payload_lookup by done. done.
  - rewrite !lookup_insert_ne, fromEntries_payload_lookup by done. done.
  - rewrite !dom_insert_L, dom_fromEntries, formDataToSend_entries.
    rewrite !fmap_app, !list_to_set_app_L.
    assert (list_to_set ((λ tag, ("tags", VString tag)) <$> tags fd).*1
            ⊆@{gset string} {[ "tags" ]}) as Htags.
    { intros k. rewrite elem_of_list_to_set, <- list_fmap_compose.
      intros (tag & -> & _)%list_elem_of_fmap. simpl. set_solver. }
    destruct file; simpl; set_solver.
Qed.

Lemma handleSubmit_callback_object_witness :
  let fd := {| text := "Beach Day"; description := "Sunny"; upload_date := "2024-05-01";
               tags := ["Vacation"; "Family Gathering"] |} in
  let s := {| st_formData := fd; st_file := None;
              st_isUploading := false; st_isGeneratingTags := false |} in
  let res := {| ok := true; parsed := Some (VObject [("id", VNum 7)]) |} in
  ∃ memory,
    successes (trace (handleSubmit "http://localhost:5000" fd None (inr ()) (λ _, inr ())
                        "2024-05-02" (Resolves res) s)) = [memory]
    ∧ memory !! "tags" = Some (VString "Vacation, Family Gathering")
    ∧ memory !! "media" = Some VUndefined
    ∧ memory !! "upload_date" = None.
Proof.
  intros fd s res.
  destruct (handleSubmit_callback_object "http://localhost:5000" "2024-05-02" fd None
              (inr ()) (λ _, inr ()) res
              (VObject [("id", VNum 7)]) s eq_refl eq_refl eq_refl)
    as (memory & Hcall & _ & _ & _ & Htags & Hmedia & _ & Hdate & _).
  exists memory. by split_and!.
Defined.

(** X13. An ok answer whose body is JSON [null]: the user is first told that
    the memory was uploaded and then that something went wrong; the success
    callback is not called, the dialog is not closed, draft and file are
    kept. *)
Theorem handleSubmit_null_body (url today : string) (fd : MemoryDraft)
    (file : option File) (onClose : exn + unit)
    (onSuccess : gmap string jsval → exn + unit) (res : Response jsval) (s : State) :
  ok res = true →
  parsed res = Some VNull →
  let r := handleSubmit url fd file onClose onSuccess today (Resolves res) s in
  alerts (trace r) =
    ["Memory uploaded successfully!"; "Something went wrong while uploading"]
  ∧ successes (trace r) = []
  ∧ closings (trace r) = 0
  ∧ st_formData (final r) = st_formData s
  ∧ st_file (final r) = st_file s
  ∧ st_isUploading (final r) = false.
Proof.
  intros Hok Hparsed r. subst r.
  destruct res as [okb p]. simpl in Hok, Hparsed. subst okb p.
  run_handler. unfold get_prop. by simpl.
Qed.

Lemma handleSubmit_null_body_witness :
  let fd := {| text := "Beach Day"; description := ""; upload_date := "2024-05-01";
               tags := [] |} in
  let s := {| st_formData := fd; st_file := Some {| name := "beach.jpg" |};
              st_isUploading := false; st_isGeneratingTags := false |} in
  let res := {| ok := true; parsed := Some VNull |} in
  st_formData (final (handleSubmit "http://localhost:5000" fd (st_file s) (inr ())
                        (λ _, inr ()) "2024-05-02" (Resolves res) s)) = fd.
Proof.
  intros fd s res.
  apply (handleSubmit_null_body "http://localhost:5000" "2024-05-02" fd (st_file s)
           (inr ()) (λ _, inr ()) res s);
    reflexivity.
Defined.

(** ** Editing through a stale render *)

(** X15. A field edit writes back the tags of the render it comes from.
    When the title is edited through the render that started a tag request,
    after the accepted answer was merged, the draft holds the new title and
    the tags of that render: every suggested tag the draft did not hold
    before is in the draft after the merge and gone after the edit. *)
Theorem onChange_stale_drops_merge (s : State) (title : string)
    (res : Response predict_json) (aiTags : list string) :
  blank (text (st_formData s)) && blank (description (st_formData s)) = false →
  ok res = true →
  parsed res = Some (PredictArray (ItemRecord <$> aiTags)) →
  let merged := final (generateTags (Resolves res) s) in
  let s' := final (onChange_text (st_formData s) title merged) in
  text (st_formData s') = title
  ∧ tags (st_formData s') = tags (st_formData s)
  ∧ (∀ x, x ∈ aiTags → x ∉ tags (st_formData s) →
       x ∈ tags (st_formData merged) ∧ x ∉ tags (st_formData s')).
Proof.
  intros Hguard Hok Hparsed merged s'. split_and!; [done..|].
  intros x Hx Hnotin. split; [|done].
  subst merged. unfold generateTags.
  rewrite (handleGenerateTags_accepts _ res _ aiTags s Hguard Hok Hparsed)
    by apply data_map_tag_records.
  simpl. rewrite elem_of_Set_from, elem_of_app. by right.
Qed.

Lemma onChange_stale_drops_merge_witness :
  let s := {| st_formData := {| text := "Trip"; description := "";
                                upload_date := "2024-05-01"; tags := ["Vacation"] |};
              st_file := None; st_isUploading := false;
              st_isGeneratingTags := false |} in
  let res := {| ok := true;
                parsed := Some (PredictArray (ItemRecord <$> ["Beach"; "Vacation"])) |} in
  tags (st_formData (final (onChange_text (st_formData s) "Trips"
                              (final (generateTags (Resolves res) s)))))
  = ["Vacation"].
Proof.
  intros s res.
  apply (onChange_stale_drops_merge s "Trips" res ["Beach"; "Vacation"]); reflexivity.
Defined.

(** ** The row of tag buttons *)

Section TagButtonFacts.
Implicit Types (fd : MemoryDraft) (s : State) (tag x : string).

Lemma availableTags_NoDup : NoDup availableTags.
Proof. apply (bool_decide_unpack _). vm_compute. exact I. Qed.

Lemma not_available x : negb (includes x availableTags) ↔ x ∉ availableTags.
Proof. rewrite negb_True, Is_true_true. by rewrite includes_true. Qed.

Lemma elem_of_tagButtonKeys fd x :
  x ∈ tagButtonKeys fd ↔ x ∈ availableTags ∨ x ∈ tags fd.
Proof.
  unfold tagButtonKeys. rewrite elem_of_app, list_elem_of_filter, not_available.
  destruct (decide (x ∈ availableTags)); tauto.
Qed.

Lemma tagButtonKeys_NoDup fd : NoDup (tags fd) → NoDup (tagButtonKeys fd).
Proof.
  intros Hnd. unfold tagButtonKeys. apply NoDup_app.
  split_and!; [apply availableTags_NoDup| |by apply NoDup_filter].
  intros x Hx [Hnot _]%list_elem_of_filter. by apply not_available in Hnot.
Qed.

Lemma tagButtons_keys fd : (tagButtons fd).*1 = tagButtonKeys fd.
Proof. unfold tagButtons. rewrite <- list_fmap_compose. apply list_fmap_id. Qed.

(** The model's test [!availableTags.includes(t)] selects the tags that are
    not available. *)
Lemma filter_not_available (l : list string) :
  filter (λ t, negb (includes t availableTags)) l = filter (λ t, t ∉ availableTags) l.
Proof. apply list_filter_iff. intros x. apply not_available. Qed.

(** A click on a tag button never selects a tag that is neither available
    nor in the draft. *)
Lemma clickTagButton_keeps_out tag s j :
  tag ∉ availableTags →
  tag ∉ tags (st_formData s) →
  tag ∉ tags (st_formData (final (clickTagButton j s))).
Proof.
  intros Hnot Hout. unfold clickTagButton.
  destruct (tagButtonKeys (st_formData s) !! j) as [t|] eqn:Hj; [|done].
  rewrite handleTagToggle_elem_of.
  apply list_elem_of_lookup_2, elem_of_tagButtonKeys in Hj.
  intros [[-> _]|[_ ?]]; tauto.
Qed.

(** Toggling an available tag does not change which extra tags the row
    shows. *)
Lemma filter_not_available_toggle tag s :
  tag ∈ availableTags →
  filter (λ t, negb (includes t availableTags))
    (tags (st_formData (final (handleTagToggle tag s))))
  = filter (λ t, negb (includes t availableTags)) (tags (st_formData s)).
Proof.
  intros Havail. rewrite handleTagToggle_tags.
  destruct (includes tag (tags (st_formData s))).
  - rewrite list_filter_filter. apply list_filter_iff.
    intros x. rewrite not_available. split; [tauto|].
    intros Hx. split; [done|]. congruence.
  - rewrite filter_app, filter_cons_False, filter_nil; [apply app_nil_r|].
    rewrite not_available. tauto.
Qed.

(** The highlight after a toggle. *)
Lemma includes_toggle tag s x :
  includes x (tags (st_formData (final (handleTagToggle tag s)))) =
    if decide (x = tag) then negb (includes x (tags (st_formData s)))
    else includes x (tags (st_formData s)).
Proof.
  destruct (handleTagToggle_elem_of tag s x) as [Hto Hfrom].
  destruct (includes x (tags (st_formData (final (handleTagToggle tag s))))) eqn:Hnew;
    [apply includes_true in Hnew | apply includes_false in Hnew];
    destruct (includes x (tags (st_formData s))) eqn:Hold;
    [apply includes_true in Hold | apply includes_false in Hold
    |apply includes_true in Hold | apply includes_false in Hold];
    case_decide; subst; simpl; try done; tauto.
Qed.
End TagButtonFacts.

(** X16. The row of tag buttons shows the available tags first, in their
    fixed order, and then the tags of the draft that are not among them, in
    the order of the draft: an available tag of the draft gets no second
    button. A tag has a button exactly when it is available or in the
    draft, and a button is highlighted exactly when its tag is in the
    draft. *)
Theorem tagButtons_shows (fd : MemoryDraft) :
  (tagButtons fd).*1 = availableTags ++ filter (λ t, t ∉ availableTags) (tags fd)
  ∧ (∀ (i : nat) x, (tagButtons fd).*1 !! i = Some x →
       (List.length availableTags ≤ i)%nat → x ∉ availableTags)
  ∧ (∀ x, x ∈ (tagButtons fd).*1 ↔ x ∈ availableTags ∨ x ∈ tags fd)
  ∧ availableTags `prefix_of` (tagButtons fd).*1
  ∧ (∀ key highlighted, (key, highlighted) ∈ tagButtons fd →
       (highlighted = true ↔ key ∈ tags fd))
  ∧ (∀ x, x ∈ tags fd → (x, true) ∈ tagButtons fd).
Proof.
  assert ((tagButtons fd).*1 = tagButtonKeys fd) as Hkeys.
  { unfold tagButtons. rewrite <- list_fmap_compose. apply list_fmap_id. }
  assert (tagButtonKeys fd = availableTags ++ filter (λ t, t ∉ availableTags) (tags fd))
    as Hrow.
  { unfold tagButtonKeys. by rewrite filter_not_available. }
  split_and!.
  - by rewrite Hkeys.
  - intros i x. rewrite Hkeys, Hrow. intros Hi Hlen.
    rewrite lookup_app_r in Hi by done.
    apply list_elem_of_lookup_2, list_elem_of_filter in Hi. tauto.
  - intros x. rewrite Hkeys. apply elem_of_tagButtonKeys.
  - rewrite Hkeys. by apply prefix_app_r.
  - intros key highlighted (tag & [= -> ->] & _)%list_elem_of_fmap.
    apply includes_true.
  - intros x Hx. apply list_elem_of_fmap. exists x. split.
    + f_equal. symmetry. by apply includes_true.
    + apply elem_of_tagButtonKeys. by right.
Qed.

(** X16 on a draft holding two available tags and two others. *)
Lemma tagButtons_shows_witness :
  let fd := {| text := "Trip"; description := ""; upload_date := "2024-05-01";
               tags := ["Birthday"; "Outdoor"; "Wedding"; "Sea"] |} in
  (tagButtons fd).*1 =
    ["Birthday"; "Festival"; "Vacation"; "Achievement"; "Family Gathering";
     "Anniversary"; "Graduation"; "Wedding"; "Outdoor"; "Sea"].
Proof.
  intros fd. rewrite (proj1 (tagButtons_shows fd)). reflexivity.
Defined.

(** X17. For a draft of string tags, the React keys of the tag buttons are
    pairwise different exactly when no tag outside the available ones occurs
    twice in the draft; so they are whenever the draft has no tag twice. *)
Theorem tagButtons_keys_unique (fd : MemoryDraft) :
  (NoDup (tagButtons fd).*1 ↔ NoDup (filter (λ t, t ∉ availableTags) (tags fd)))
  ∧ (NoDup (tags fd) → NoDup (tagButtons fd).*1).
Proof.
  assert ((tagButtons fd).*1 = tagButtonKeys fd) as ->.
  { unfold tagButtons. rewrite <- list_fmap_compose. apply list_fmap_id. }
  split; [|apply tagButtonKeys_NoDup].
  unfold tagButtonKeys. rewrite filter_not_available, NoDup_app. split; [tauto|].
  intros Hnd. split_and!; [apply availableTags_NoDup| |done].
  intros x Hx [Hnot _]%list_elem_of_filter. done.
Qed.

Lemma tagButtons_keys_unique_witness :
  let fd := {| text := "Trip"; description := ""; upload_date := "2024-05-01";
               tags := ["Birthday"; "Outdoor"; "Wedding"; "Sea"] |} in
  NoDup (tagButtons fd).*1.
Proof.
  intros fd. apply (proj2 (tagButtons_keys_unique fd)).
  apply (bool_decide_unpack _). vm_compute. exact I.
Defined.

(** X18. A click on the button of an available tag keeps the row as it is
    and flips the highlight of that button only. *)
Theorem clickTagButton_available (i : nat) (tag : string) (s : State) :
  tagButtonKeys (st_formData s) !! i = Some tag →
  tag ∈ availableTags →
  let s' := final (clickTagButton i s) in
  (tagButtons (st_formData s')).*1 = (tagButtons (st_formData s)).*1
  ∧ (∀ j key highlighted,
       tagButtons (st_formData s) !! j = Some (key, highlighted) →
       tagButtons (st_formData s') !! j =
         Some (key, if decide (key = tag) then negb highlighted else highlighted)).
Proof.
  intros Hi Havail s'. subst s'. unfold clickTagButton. rewrite Hi.
  assert (tagButtonKeys (st_formData (final (handleTagToggle tag s)))
          = tagButtonKeys (st_formData s)) as Hkeys.
  { unfold tagButtonKeys. by rewrite filter_not_available_toggle. }
  split.
  - unfold tagButtons. by rewrite <- !list_fmap_compose, !list_fmap_id, Hkeys.
  - intros j key highlighted. unfold tagButtons. rewrite Hkeys, !list_lookup_fmap.
    destruct (tagButtonKeys (st_formData s) !! j) as [k|]; [|done].
    unfold fmap, option_fmap, option_map. intros [= -> <-].
    by rewrite includes_toggle.
Qed.

Lemma clickTagButton_available_witness :
  let s := {| st_formData := {| text := "Trip"; description := "";
                                upload_date := "2024-05-01"; tags := ["Outdoor"] |};
              st_file := None; st_isUploading := false;
              st_isGeneratingTags := false |} in
  (tagButtons (st_formData (final (clickTagButton 2 s)))).*1
  = (tagButtons (st_formData s)).*1.
Proof.
  intros s. apply (clickTagButton_available 2 "Vacation" s); [reflexivity|].
  apply includes_true. reflexivity.
Defined.

(** X19. A click on the button of a tag that is not among the available
    ones (a suggested tag) removes the tag from the draft and the button
    from the row, and no click on a tag button brings it back: after any
    sequence of further clicks on tag buttons the draft still lacks the
    tag. *)
Theorem clickTagButton_suggested (i : nat) (tag : string) (s : State) :
  tagButtonKeys (st_formData s) !! i = Some tag →
  tag ∉ availableTags →
  let s' := final (clickTagButton i s) in
  (tag ∈ tags (st_formData s))
  ∧ (tag ∉ tags (st_formData s'))
  ∧ (tag ∉ (tagButtons (st_formData s')).*1)
  ∧ (∀ j, tagButtonKeys (st_formData s') !! j ≠ Some tag)
  ∧ (∀ clicks : list nat,
       let s'' := fold_left (λ st j, final (clickTagButton j st)) clicks s' in
       (tag ∉ tags (st_formData s'')) ∧ (tag ∉ (tagButtons (st_formData s'')).*1)).
Proof.
  intros Hi Hnot s'.
  assert (tag ∈ tags (st_formData s)) as Hin.
  { apply list_elem_of_lookup_2, elem_of_tagButtonKeys in Hi. tauto. }
  assert (tag ∉ tags (st_formData s')) as Hout.
  { subst s'. unfold clickTagButton. rewrite Hi, handleTagToggle_elem_of. tauto. }
  assert (tag ∉ tagButtonKeys (st_formData s')) as Hkey.
  { rewrite elem_of_tagButtonKeys. tauto. }
  split_and!; [done..| | |].
  - unfold tagButtons. by rewrite <- list_fmap_compose, list_fmap_id.
  - intros j Hj. by apply list_elem_of_lookup_2 in Hj.
  - intros clicks. cbv zeta. clearbody s'. clear Hi Hin Hkey. revert s' Hout.
    induction clicks as [|j clicks IH]; intros st Hout; cbn [fold_left].
    + split; [done|]. rewrite tagButtons_keys, elem_of_tagButtonKeys. tauto.
    + apply IH. by apply clickTagButton_keeps_out.
Qed.

Lemma clickTagButton_suggested_witness :
  let s := {| st_formData := {| text := "Trip"; description := "";
                                upload_date := "2024-05-01"; tags := ["Outdoor"] |};
              st_file := None; st_isUploading := false;
              st_isGeneratingTags := false |} in
  "Outdoor" ∉ (tagButtons (st_formData (final (clickTagButton 8 s)))).*1.
Proof.
  intros s. apply (clickTagButton_suggested 8 "Outdoor" s); [reflexivity|].
  apply includes_false. reflexivity.
Defined.

(** ** What the mail dispatcher calls and logs *)

(** X20. [sendMail] calls the provider exactly once, with the four fields
    as given, and never again: a failure is not retried. It writes one line
    to the error console when the call rejects with an [Error] object (the
    line holds its message) or with any value other than [null] and
    [undefined], and when the call resolves to [null] or [undefined]. It
    writes nothing there when the call resolves to any other response,
    whatever it reports, nor when the call rejects with [null] or
    [undefined]: the catch block then throws before it logs. *)
Theorem sendMail_one_call (to from subject html : string) (o : Mailer.send_outcome) :
  let t := trace (Mailer.sendMail to from subject html o ()) in
  Mailer.provider_calls t =
    [{| Mailer.from := from; Mailer.to := to;
        Mailer.subject := subject; Mailer.html := html |}]
  ∧ match o with
    | Mailer.Resolves response =>
        List.length (Mailer.error_logs t) = if nullish response then 1 else 0
    | Mailer.Rejects (NetworkError m) | Mailer.Rejects (TypeError m) =>
        Mailer.error_logs t = [[VString "Email error:"; VString m]]
    | Mailer.Rejects SyntaxError =>
        List.length (Mailer.error_logs t) = 1
    | Mailer.Rejects (ThrownValue reason) =>
        List.length (Mailer.error_logs t) = if nullish reason then 0 else 1
    end.
Proof.
  intros t. subst t. destruct o as [response|[m| |m|reason]]; try by run_sendMail.
  - destruct response; by run_sendMail.
  - destruct reason; by run_sendMail.
Qed.

(** X21. A response that reports the provider's rejection, [{data: null,
    error: ...}], or that has no [data] at all, is logged as a sent mail:
    after the response itself the console gets "Email sent:" "OK", and the
    error console gets nothing. *)
Theorem sendMail_logs_rejection_as_sent (to from subject html : string)
    (members : list (string * jsval)) :
  nullish (get_member "data" members) = true →
  trace (Mailer.sendMail to from subject html (Mailer.Resolves (VObject members)) ()) =
    [Mailer.EmailsSend {| Mailer.from := from; Mailer.to := to;
                          Mailer.subject := subject; Mailer.html := html |};
     Mailer.ConsoleLog [VObject members];
     Mailer.ConsoleLog [VString "Email sent:"; VString "OK"]].
Proof.
  intros Hdata. run_sendMail.
  by destruct (get_member "data" members).
Qed.

Lemma sendMail_logs_rejection_as_sent_witness :
  let response := [("data", VNull);
                   ("error", VObject [("message", VString "Invalid `to` field")])] in
  Mailer.error_logs
    (trace (Mailer.sendMail "nobody" "app@example.com" "Hello" "<p>Hi</p>"
              (Mailer.Resolves (VObject response)) ())) = [].
Proof.
  intros response.
  rewrite (sendMail_logs_rejection_as_sent "nobody" "app@example.com" "Hello" "<p>Hi</p>"
             response); reflexivity.
Defined.

(** X22. When the response carries a non-empty string under [data.id], that
    identifier is what the second console line shows. *)
Theorem sendMail_logs_id (to from subject html : string)
    (members data : list (string * jsval)) (id : string) :
  get_member "data" members = VObject data →
  get_member "id" data = VString id →
  id ≠ "" →
  trace (Mailer.sendMail to from subject html (Mailer.Resolves (VObject members)) ()) =
    [Mailer.EmailsSend {| Mailer.from := from; Mailer.to := to;
                          Mailer.subject := subject; Mailer.html := html |};
     Mailer.ConsoleLog [VObject members];
     Mailer.ConsoleLog [VString "Email sent:"; VString id]].
Proof.
  intros Hdata Hid Hne. run_sendMail. rewrite Hdata, Hid. simpl.
  by destruct id.
Qed.

Lemma sendMail_logs_id_witness :
  let response := [("data", VObject [("id", VString "49a3999c")]); ("error", VNull)] in
  trace (Mailer.sendMail "you@example.com" "app@example.com" "Hello" "<p>Hi</p>"
           (Mailer.Resolves (VObject response)) ()) =
    [Mailer.EmailsSend {| Mailer.from := "app@example.com"; Mailer.to := "you@example.com";
                          Mailer.subject := "Hello"; Mailer.html := "<p>Hi</p>" |};
     Mailer.ConsoleLog [VObject response];
     Mailer.ConsoleLog [VString "Email sent:"; VString "49a3999c"]].
Proof.
  intros response.
  apply (sendMail_logs_id "you@example.com" "app@example.com" "Hello" "<p>Hi</p>"
           response [("id", VString "49a3999c")] "49a3999c"); done.
Defined.
